(** * FuelEU Maritime: compliance ledger, banking and pooling

    A shallow embedding of the backend's compliance engine:

    - [PostgresShipComplianceRepository] (the ledger, [computeAndSave]),
    - [PostgresBankingRepository] with the banking HTTP handlers and the
      legacy [BankingUseCase],
    - [PoolUseCase.createPool] with [PostgresPoolRepository.save].

    Conventions of the embedding.

    - A JavaScript [number] and a [DECIMAL] column are exact rationals ([Q]);
      comparisons are those of the source ([<], [<=]) and equalities between
      computed amounts are stated up to [Qeq].  IEEE rounding, [NaN] and the
      rounding of a [DECIMAL(15,2)] column to two places are outside the model.
    - The PostgreSQL database is an explicit state [DB]: one list of rows per
      table of [schema.sql] plus the [SERIAL] sequence of each table.  Values
      are taken to fit their column types ([INTEGER], [VARCHAR(n)]); the
      relational constraints the modelled code can run into are modelled.
    - An [async] method that may throw is a function [DB -> Result A * DB].
      [BEGIN] .. [ROLLBACK] gives the tables back as they were; a sequence
      value drawn by an [INSERT] stays drawn.
    - [CURRENT_TIMESTAMP], [Date.now()] and [new Date()] are read from a
      parameter [now]. *)

From Stdlib Require Import List String ZArith QArith Lqa Lia Bool.
Import ListNotations.
Open Scope Q_scope.

(** ** Numbers *)

(** [x < y] on JavaScript numbers. *)
Definition Qltb (x y : Q) : bool := negb (Qle_bool y x).

(** [Math.min(x, y)]. *)
Definition mathMin (x y : Q) : Q := if Qle_bool x y then x else y.

(** ** Errors

    The source throws [Error] objects that differ only in their message; each
    constructor stands for one message template and keeps the values the
    template interpolates. *)

(** One line of the Article 21 message of [PoolUseCase.createPool]. *)
Inductive ValidationError : Type :=
| DeficitExitsWorse (shipId : string) (cbBefore cbAfter : Q)
    (* `Deficit ship ${shipId} cannot exit worse: CB before: .., CB after: ..` *)
| SurplusExitsNegative (shipId : string) (cbBefore cbAfter : Q).
    (* `Surplus ship ${shipId} cannot exit negative: CB before: .., CB after: ..` *)


Inductive Error : Type :=
| MissingBalance (shipId : string) (year : Z)
    (* `Compliance balance not found for ship ${shipId} in year ${year}` *)
| NegativePoolSum
    (* 'Cannot create pool: Sum of compliance balances is negative' *)
| Article21Violation (validationErrors : list ValidationError)
    (* 'Cannot create pool: Violates Article 21 pooling rules:\n' + lines *)
| SavePoolFailed
    (* 'Failed to save pool to database' *)
| NoComplianceBalance (shipId : string) (year : Z)
    (* `No compliance balance found for ship ${shipId} in year ${year}` *)
| InsufficientSurplus (currentCb amount : Q)
    (* `Insufficient surplus. Current CB: ${currentCb}, Requested: ${amount}` *)
| InsufficientBankedSurplus (totalBanked amount : Q)
    (* `Insufficient banked surplus. Available: .., Requested: ..` *)
| UseBankSurplusForShip
    (* 'Use bankSurplusForShip method with shipId parameter' *)
| UseApplyBankedSurplusToShip
    (* 'Use applyBankedSurplusToShip method with shipId parameter' *)
| RouteDoesNotExist (routeId : string)
    (* `Route ${routeId} does not exist. Available routes: R001, .., R005` *)
| RouteNotFoundForYear (routeId : string) (year : Z) (years : list Z)
    (* `Route ${routeId} not found for year ${year}. Available years ..: ${years}` *)
| SaveShipComplianceFailed
    (* 'Failed to save ship compliance to database' *)
| FailedToCompute (cause : Error)
    (* `Failed to compute compliance balance: ${error.message}` *)
| BadRequest (field : string).
    (* HTTP 400 of a route handler, with the field it rejects *)

Inductive Result (A : Type) : Type :=
| Ok (a : A)
| Err (e : Error).
Arguments Ok {A} a.
Arguments Err {A} e.

(** ** The database of [schema.sql] *)

Record RouteRow : Type := mkRouteRow {
  r_route_id : string;
  r_year : Z;
  r_ghg_intensity : Q;
  r_fuel_consumption : Q
}.

Record ShipComplianceRow : Type := mkShipComplianceRow {
  sc_id : Z;
  sc_ship_id : string;
  sc_year : Z;
  sc_cb_gco2eq : Q
}.

Record BankEntryRow : Type := mkBankEntryRow {
  be_id : Z;
  be_ship_id : string;
  be_year : Z;
  be_amount_gco2eq : Q;
  be_created_at : Z
}.

Record PoolRow : Type := mkPoolRow {
  p_id : Z;
  p_name : option string;
  p_year : Z;
  p_created_at : Z
}.

Record PoolMemberRow : Type := mkPoolMemberRow {
  pm_pool_id : Z;
  pm_ship_id : string;
  pm_cb_before : Q;
  pm_cb_after : Q
}.

Record DB : Type := mkDB {
  routes : list RouteRow;
  ship_compliance : list ShipComplianceRow;
  ship_compliance_id_seq : Z;
  bank_entries : list BankEntryRow;
  bank_entries_id_seq : Z;
  pools : list PoolRow;
  pools_id_seq : Z;
  pool_members : list PoolMemberRow
}.

Definition emptyDB : DB := mkDB [] [] 1 [] 1 [] 1 [].

Definition with_ship_compliance (rows : list ShipComplianceRow) (seq : Z) (db : DB) : DB :=
  mkDB (routes db) rows seq (bank_entries db) (bank_entries_id_seq db)
       (pools db) (pools_id_seq db) (pool_members db).

Definition with_bank_entries (rows : list BankEntryRow) (seq : Z) (db : DB) : DB :=
  mkDB (routes db) (ship_compliance db) (ship_compliance_id_seq db) rows seq
       (pools db) (pools_id_seq db) (pool_members db).

Definition with_pools (rows : list PoolRow) (seq : Z) (db : DB) : DB :=
  mkDB (routes db) (ship_compliance db) (ship_compliance_id_seq db)
       (bank_entries db) (bank_entries_id_seq db) rows seq (pool_members db).

Definition with_pool_members (rows : list PoolMemberRow) (db : DB) : DB :=
  mkDB (routes db) (ship_compliance db) (ship_compliance_id_seq db)
       (bank_entries db) (bank_entries_id_seq db) (pools db) (pools_id_seq db) rows.

(** [UPDATE t SET .. WHERE p]: every row that satisfies [p] is rewritten. *)
Definition updateWhere {A : Type} (p : A -> bool) (f : A -> A) (rows : list A) : list A :=
  map (fun r => if p r then f r else r) rows.

(** [DELETE FROM t WHERE p]. *)
Definition deleteWhere {A : Type} (p : A -> bool) (rows : list A) : list A :=
  filter (fun r => negb (p r)) rows.

(** [WHERE ship_id = $1 AND year = $2] on [ship_compliance]. *)
Definition scMatches (shipId : string) (year : Z) (r : ShipComplianceRow) : bool :=
  String.eqb (sc_ship_id r) shipId && Z.eqb (sc_year r) year.

(** [WHERE ship_id = $1 AND year = $2] on [bank_entries]. *)
Definition beMatches (shipId : string) (year : Z) (r : BankEntryRow) : bool :=
  String.eqb (be_ship_id r) shipId && Z.eqb (be_year r) year.

(** [WHERE id = $1] on [bank_entries]. *)
Definition beHasId (id : Z) (r : BankEntryRow) : bool := Z.eqb (be_id r) id.

(** [ORDER BY created_at ASC]: rows with the same timestamp keep the order of
    the table. *)
Fixpoint insertByCreatedAt (x : BankEntryRow) (l : list BankEntryRow) : list BankEntryRow :=
  match l with
  | [] => [x]
  | y :: l' =>
      if (be_created_at x <=? be_created_at y)%Z then x :: l
      else y :: insertByCreatedAt x l'
  end.

Definition orderByCreatedAt (rows : list BankEntryRow) : list BankEntryRow :=
  fold_right insertByCreatedAt [] rows.


(** [COALESCE(SUM(amount_gco2eq), 0)]. *)
Definition sumAmounts (rows : list BankEntryRow) : Q :=
  fold_right (fun r acc => be_amount_gco2eq r + acc) 0 rows.

(** [COALESCE(SUM(cb_gco2eq), 0)]. *)
Definition sumCb (rows : list ShipComplianceRow) : Q :=
  fold_right (fun r acc => sc_cb_gco2eq r + acc) 0 rows.

(** ** [PostgresShipComplianceRepository] *)

Module PostgresShipComplianceRepository.

(** Target GHG intensity for compliance (gCO2e/MJ). *)
Definition COMPLIANCE_TARGET : Q := 89.3368.

(** The domain object [ShipCompliance]; [id] is absent until the row is stored. *)
Record ShipCompliance : Type := mkShipCompliance {
  id : option Z;
  shipId : string;
  year : Z;
  cbGco2eq : Q
}.

Definition ofRow (r : ShipComplianceRow) : ShipCompliance :=
  mkShipCompliance (Some (sc_id r)) (sc_ship_id r) (sc_year r) (sc_cb_gco2eq r).

Definition setCb (cb : Q) (r : ShipComplianceRow) : ShipComplianceRow :=
  mkShipComplianceRow (sc_id r) (sc_ship_id r) (sc_year r) cb.

Definition scHasId (i : Z) (r : ShipComplianceRow) : bool := Z.eqb (sc_id r) i.

Definition findByShipAndYear (shipId : string) (year : Z) (db : DB) : option ShipCompliance :=
  match filter (scMatches shipId year) (ship_compliance db) with
  | [] => None
  | row :: _ => Some (ofRow row)
  end.

(** [save]: [UPDATE .. WHERE id] when the object carries an id, otherwise
    [INSERT .. ON CONFLICT (ship_id, year) DO UPDATE].  Reading
    [result.rows[0]] of an [UPDATE] that matched nothing throws, which the
    [catch] turns into the save error. *)
Definition save (shipCompliance : ShipCompliance) (db : DB) : Result ShipCompliance * DB :=
  match id shipCompliance with
  | Some i =>
      let rows := updateWhere (scHasId i) (setCb (cbGco2eq shipCompliance)) (ship_compliance db) in
      match filter (scHasId i) rows with
      | [] => (Err SaveShipComplianceFailed, db)
      | row :: _ => (Ok (ofRow row), with_ship_compliance rows (ship_compliance_id_seq db) db)
      end
  | None =>
      let newId := ship_compliance_id_seq db in
      let key := scMatches (shipId shipCompliance) (year shipCompliance) in
      match filter key (ship_compliance db) with
      | [] =>
          let row := mkShipComplianceRow newId (shipId shipCompliance) (year shipCompliance)
                                         (cbGco2eq shipCompliance) in
          (Ok (ofRow row), with_ship_compliance (ship_compliance db ++ [row]) (newId + 1)%Z db)
      | old :: _ =>
          let rows := updateWhere key (setCb (cbGco2eq shipCompliance)) (ship_compliance db) in
          (Ok (ofRow (setCb (cbGco2eq shipCompliance) old)),
           with_ship_compliance rows (newId + 1)%Z db)
      end
  end.

(** [WHERE route_id = $1 AND year = $2] and [WHERE route_id = $1] on [routes]. *)
Definition routeMatches (routeId : string) (year : Z) (r : RouteRow) : bool :=
  String.eqb (r_route_id r) routeId && Z.eqb (r_year r) year.

Definition routeHasId (routeId : string) (r : RouteRow) : bool :=
  String.eqb (r_route_id r) routeId.

(** [ORDER BY year DESC LIMIT 1]. *)
Fixpoint latestRoute (rows : list RouteRow) : option RouteRow :=
  match rows with
  | [] => None
  | r :: rest =>
      match latestRoute rest with
      | None => Some r
      | Some r' => if (r_year r' <=? r_year r)%Z then Some r else Some r'
      end
  end.

(** [SELECT DISTINCT year .. ORDER BY year]. *)
Fixpoint insertYear (y : Z) (l : list Z) : list Z :=
  match l with
  | [] => [y]
  | z :: l' =>
      if (y <? z)%Z then y :: l
      else if (y =? z)%Z then l
      else z :: insertYear y l'
  end.

Definition distinctYears (rows : list RouteRow) : list Z :=
  fold_right (fun r acc => insertYear (r_year r) acc) [] rows.

(** The two route queries of [computeAndSave]: the row for the requested
    year, else the most recent row of the route, else one of the two errors. *)
Definition resolveRoute (routeId : string) (year : Z) (db : DB) : Result RouteRow :=
  match filter (routeMatches routeId year) (routes db) with
  | route :: _ => Ok route
  | [] =>
      match latestRoute (filter (routeHasId routeId) (routes db)) with
      | Some route => Ok route
      | None =>
          match filter (routeHasId routeId) (routes db) with
          | [] => Err (RouteDoesNotExist routeId)
          | rows => Err (RouteNotFoundForYear routeId year (distinctYears rows))
          end
      end
  end.

Definition computeAndSave (shipId : string) (year : Z) (routeId : string) (db : DB)
  : Result ShipCompliance * DB :=
  match resolveRoute routeId year db with
  | Err e => (Err (FailedToCompute e), db)
  | Ok route =>
      let ghgIntensity := r_ghg_intensity route in
      let fuelConsumption := r_fuel_consumption route in
      (* Compute CB: (Target - Actual) * Fuel Consumption *)
      let cb := (COMPLIANCE_TARGET - ghgIntensity) * fuelConsumption in
      match save (mkShipCompliance None shipId year cb) db with
      | (Ok saved, db') => (Ok saved, db')
      | (Err e, db') => (Err (FailedToCompute e), db')
      end
  end.

End PostgresShipComplianceRepository.

(** ** [PostgresBankingRepository] *)

Module PostgresBankingRepository.

(** The domain object [ComplianceBalance] ([{ year, cb }]). *)
Record ComplianceBalance : Type := mkComplianceBalance {
  cbYear : Z;
  cb : Q
}.

Definition getComplianceBalance (year : Z) (db : DB) : ComplianceBalance :=
  mkComplianceBalance year
    (sumCb (filter (fun r => Z.eqb (sc_year r) year) (ship_compliance db))).

Definition addCb (delta : Q) (r : ShipComplianceRow) : ShipComplianceRow :=
  mkShipComplianceRow (sc_id r) (sc_ship_id r) (sc_year r) (sc_cb_gco2eq r + delta).

Definition subAmount (delta : Q) (r : BankEntryRow) : BankEntryRow :=
  mkBankEntryRow (be_id r) (be_ship_id r) (be_year r) (be_amount_gco2eq r - delta)
                 (be_created_at r).

(** Bank surplus for a specific ship. *)
Definition bankSurplusForShip (now : Z) (shipId : string) (year : Z) (amount : Q) (db : DB)
  : Result unit * DB :=
  match filter (scMatches shipId year) (ship_compliance db) with
  | [] => (Err (NoComplianceBalance shipId year), db)
  | row :: _ =>
      let currentCb := sc_cb_gco2eq row in
      if Qltb currentCb amount then (Err (InsufficientSurplus currentCb amount), db)
      else
        (* Deduct from ship CB *)
        let db1 := with_ship_compliance
                     (updateWhere (scMatches shipId year) (addCb (- amount)) (ship_compliance db))
                     (ship_compliance_id_seq db) db in
        (* Add to bank_entries *)
        let entry := mkBankEntryRow (bank_entries_id_seq db1) shipId year amount now in
        (Ok tt, with_bank_entries (bank_entries db1 ++ [entry])
                                  (bank_entries_id_seq db1 + 1)%Z db1)
  end.

(** Get total banked amount for a ship in a year. *)
Definition getBankedAmountForShip (shipId : string) (year : Z) (db : DB) : Q :=
  sumAmounts (filter (beMatches shipId year) (bank_entries db)).

(** The [for] loop of [applyBankedSurplusToShip] over the rows selected
    before it; the rows of the table are deleted and updated by id. *)
Fixpoint consumeEntries (entries : list BankEntryRow) (remaining : Q) (db : DB) : DB :=
  match entries with
  | [] => db
  | entry :: rest =>
      let entryAmount := be_amount_gco2eq entry in
      if Qle_bool remaining 0 then db (* break *)
      else if Qle_bool entryAmount remaining then
        (* Delete entire entry *)
        consumeEntries rest (remaining - entryAmount)
          (with_bank_entries (deleteWhere (beHasId (be_id entry)) (bank_entries db))
                             (bank_entries_id_seq db) db)
      else
        (* Reduce entry amount *)
        consumeEntries rest 0
          (with_bank_entries
             (updateWhere (beHasId (be_id entry)) (subAmount remaining) (bank_entries db))
             (bank_entries_id_seq db) db)
  end.

(** Apply banked surplus to a ship's CB. *)
Definition applyBankedSurplusToShip (shipId : string) (year : Z) (amount : Q) (db : DB)
  : Result unit * DB :=
  let totalBanked := sumAmounts (filter (beMatches shipId year) (bank_entries db)) in
  if Qltb totalBanked amount then (Err (InsufficientBankedSurplus totalBanked amount), db)
  else
    let entries := orderByCreatedAt (filter (beMatches shipId year) (bank_entries db)) in
    let db1 := consumeEntries entries amount db in
    (* Add to ship CB *)
    (Ok tt, with_ship_compliance
              (updateWhere (scMatches shipId year) (addCb amount) (ship_compliance db1))
              (ship_compliance_id_seq db1) db1).

(** Legacy methods for backward compatibility: the two writers are
    deprecated and only throw. *)
Definition bankSurplus (year : Z) (amount : Q) (db : DB) : Result unit * DB :=
  (Err UseBankSurplusForShip, db).

Definition getBankedAmount (year : Z) (db : DB) : Q :=
  sumAmounts (filter (fun r => Z.eqb (be_year r) year) (bank_entries db)).

Definition applyBankedSurplus (year : Z) (amount : Q) (db : DB) : Result unit * DB :=
  (Err UseApplyBankedSurplusToShip, db).

End PostgresBankingRepository.

(** ** Banking HTTP handlers ([routes/bankingRoutes])

    The handlers validate the request body and call the per-ship repository
    methods directly.  [shipId] is the identifier after [trim()], [year] and
    [amount] the parsed numbers. *)

Module BankingRoutes.
Import PostgresBankingRepository.

(** [POST /api/banking/bank]; the answer carries [bankedAmount]. *)
Definition postBankingBank (now : Z) (shipId : string) (year : Z) (amount : Q) (db : DB)
  : Result Q * DB :=
  if String.eqb shipId "" then (Err (BadRequest "shipId"), db)
  else if (year <=? 0)%Z then (Err (BadRequest "year"), db)
  else if Qle_bool amount 0 then (Err (BadRequest "amount"), db)
  else
    match bankSurplusForShip now shipId year amount db with
    | (Err e, db') => (Err e, db')
    | (Ok _, db') => (Ok (getBankedAmountForShip shipId year db'), db')
    end.

(** [POST /api/banking/apply]; the answer carries [appliedAmount]. *)
Definition postBankingApply (shipId : string) (year : Z) (amount : Q) (db : DB)
  : Result Q * DB :=
  if String.eqb shipId "" then (Err (BadRequest "shipId"), db)
  else if (year <=? 0)%Z then (Err (BadRequest "year"), db)
  else if Qle_bool amount 0 then (Err (BadRequest "amount"), db)
  else
    match applyBankedSurplusToShip shipId year amount db with
    | (Err e, db') => (Err e, db')
    | (Ok _, db') => (Ok amount, db')
    end.

End BankingRoutes.

(** ** [BankingUseCase] (fleet-wide, built on the legacy repository methods) *)

Module BankingUseCase.
Import PostgresBankingRepository.

Record BankingResult : Type := mkBankingResult {
  cbBefore : Q;
  applied : Q;
  cbAfter : Q;
  success : bool;
  message : option string
}.

Definition bankSurplus (year : Z) (amount : Q) (db : DB) : Result BankingResult * DB :=
  let currentCB := getComplianceBalance year db in
  if Qle_bool (cb currentCB) 0 then
    (Ok (mkBankingResult (cb currentCB) 0 (cb currentCB) false
           (Some "Cannot bank: Compliance Balance is not positive"%string)), db)
  else
    let bankedAmount := mathMin amount (cb currentCB) in
    match PostgresBankingRepository.bankSurplus year bankedAmount db with
    | (Err e, db') => (Err e, db')
    | (Ok _, db') =>
        (Ok (mkBankingResult (cb currentCB) bankedAmount (cb currentCB - bankedAmount) true None),
         db')
    end.

Definition applyBankedSurplus (year : Z) (amount : Q) (db : DB) : Result BankingResult * DB :=
  let currentCB := getComplianceBalance year db in
  let bankedAmount := getBankedAmount year db in
  if Qle_bool bankedAmount 0 then
    (Ok (mkBankingResult (cb currentCB) 0 (cb currentCB) false
           (Some "No banked surplus available"%string)), db)
  else
    let appliedAmount := mathMin amount bankedAmount in
    match PostgresBankingRepository.applyBankedSurplus year appliedAmount db with
    | (Err e, db') => (Err e, db')
    | (Ok _, db') =>
        let updatedCB := getComplianceBalance year db' in
        (Ok (mkBankingResult (cb currentCB) appliedAmount (cb updatedCB) true None), db')
    end.

End BankingUseCase.

(** ** The pool domain ([domain/Pool]) *)

Record PoolMember : Type := mkPoolMember {
  shipId : string;
  adjustedCB : Q;
  cbBefore : Q;
  cbAfter : Q
}.

(** [poolId] is [`pool-${Date.now()}`] until [save] replaces it by the row id. *)
Inductive PoolId : Type :=
| PoolAt (millis : Z)
| PoolNo (id : Z).

Record Pool : Type := mkPool {
  poolId : PoolId;
  name : option string;
  year : Z;
  members : list PoolMember;
  poolSum : Q;
  createdAt : Z
}.

Record CreatePoolRequest : Type := mkCreatePoolRequest {
  reqName : option string;
  reqYear : Z;
  memberShipIds : list string
}.

(** ** [PostgresPoolRepository] *)

Module PostgresPoolRepository.

(** [poolData.name || null]. *)
Definition nameOrNull (n : option string) : option string :=
  match n with
  | Some s => if String.eqb s "" then None else Some s
  | None => None
  end.

(** [PRIMARY KEY (pool_id, ship_id)] of [pool_members]. *)
Definition pmHasKey (poolId : Z) (shipId : string) (r : PoolMemberRow) : bool :=
  Z.eqb (pm_pool_id r) poolId && String.eqb (pm_ship_id r) shipId.

(** The loop of [INSERT INTO pool_members]; [None] when an insert violates
    the primary key. *)
Fixpoint insertMembers (poolId : Z) (ms : list PoolMember) (rows : list PoolMemberRow)
  : option (list PoolMemberRow) :=
  match ms with
  | [] => Some rows
  | member :: rest =>
      if existsb (pmHasKey poolId (shipId member)) rows then None
      else insertMembers poolId rest
             (rows ++ [mkPoolMemberRow poolId (shipId member) (cbBefore member) (cbAfter member)])
  end.

(** [save]: one transaction that inserts the pool row and then one
    [pool_members] row per member; [createPool] always sets [createdAt], so the
    [|| new Date()] fallback never applies. *)
Definition save (poolData : Pool) (db : DB) : Result Pool * DB :=
  (* Insert pool (using auto-generated id) *)
  let newId := pools_id_seq db in
  let db1 := with_pools
               (pools db ++ [mkPoolRow newId (nameOrNull (name poolData)) (year poolData)
                                       (createdAt poolData)])
               (newId + 1)%Z db in
  (* Insert pool members *)
  match insertMembers newId (members poolData) (pool_members db1) with
  | None => (Err SavePoolFailed, with_pools (pools db) (newId + 1)%Z db) (* ROLLBACK *)
  | Some rows =>
      (Ok (mkPool (PoolNo newId) (name poolData) (year poolData) (members poolData)
                  (poolSum poolData) (createdAt poolData)),
       with_pool_members rows db1)
  end.

(** [WHERE pool_id = $1] on [pool_members] and [WHERE id = $1] on [pools]. *)
Definition pmInPool (poolId : Z) (r : PoolMemberRow) : bool := Z.eqb (pm_pool_id r) poolId.

Definition poolHasId (poolId : Z) (r : PoolRow) : bool := Z.eqb (p_id r) poolId.

(** One [pool_members] row as [findAll] and [findById] map it: [adjustedCB]
    and [cbBefore] are both read from [cb_before]. *)
Definition memberOfRow (m : PoolMemberRow) : PoolMember :=
  mkPoolMember (pm_ship_id m) (pm_cb_before m) (pm_cb_before m) (pm_cb_after m).

(** The pool object both queries build from one [pools] row.  Its [poolSum]
    is recomputed as the sum of the members' [cb_after]; [poolRow.name ||
    undefined] drops a null or empty name like [nameOrNull]. *)
Definition poolOfRow (db : DB) (poolRow : PoolRow) : Pool :=
  let membersResult := filter (pmInPool (p_id poolRow)) (pool_members db) in
  (* Calculate pool sum *)
  let poolSum := fold_left (fun sum m => sum + pm_cb_after m) membersResult 0 in
  mkPool (PoolNo (p_id poolRow)) (nameOrNull (p_name poolRow)) (p_year poolRow)
         (map memberOfRow membersResult) poolSum (p_created_at poolRow).

(** [ORDER BY created_at DESC]: rows with the same timestamp keep the order
    of the table. *)
Fixpoint insertNewestFirst (x : PoolRow) (l : list PoolRow) : list PoolRow :=
  match l with
  | [] => [x]
  | y :: l' =>
      if (p_created_at y <=? p_created_at x)%Z then x :: l
      else y :: insertNewestFirst x l'
  end.

Definition orderByCreatedAtDesc (rows : list PoolRow) : list PoolRow :=
  fold_right insertNewestFirst [] rows.

Definition findAll (db : DB) : list Pool :=
  map (poolOfRow db) (orderByCreatedAtDesc (pools db)).

(** [findById]: the id is parsed with [parseInt]; for the provisional id
    [`pool-${Date.now()}`] that gives [NaN], the query fails and the [catch]
    returns [null]. *)
Definition findById (poolId : PoolId) (db : DB) : option Pool :=
  match poolId with
  | PoolAt _ => None
  | PoolNo id =>
      match filter (poolHasId id) (pools db) with
      | [] => None
      | poolRow :: _ => Some (poolOfRow db poolRow)
      end
  end.

End PostgresPoolRepository.

(** ** [PoolUseCase] *)

Module PoolUseCase.

(** Step 1: retrieve the adjusted compliance balance of every member ship;
    the first ship without one aborts the call. *)
Fixpoint loadMembers (year : Z) (shipIds : list string) (db : DB) : Result (list PoolMember) :=
  match shipIds with
  | [] => Ok []
  | shipId :: rest =>
      match PostgresShipComplianceRepository.findByShipAndYear shipId year db with
      | None => Err (MissingBalance shipId year)
      | Some shipCompliance =>
          let cb := PostgresShipComplianceRepository.cbGco2eq shipCompliance in
          match loadMembers year rest db with
          | Err e => Err e
          | Ok ms => Ok (mkPoolMember shipId cb cb 0 :: ms)
          end
      end
  end.

(** [members.reduce((sum, member) => sum + member.adjustedCB, 0)]. *)
Definition sumAdjusted (ms : list PoolMember) : Q :=
  fold_left (fun sum member => sum + adjustedCB member) ms 0.

(** The body of the validation loop for one member: rule 1, then rule 2. *)
Definition memberErrors (cbAfter : Q) (member : PoolMember) : list ValidationError :=
  let isDeficit := Qltb (cbBefore member) 0 in
  let isSurplus := Qltb 0 (cbBefore member) in
  (if isDeficit && Qltb cbAfter (cbBefore member)
   then [DeficitExitsWorse (shipId member) (cbBefore member) cbAfter] else [])
  ++
  (if isSurplus && Qltb cbAfter 0
   then [SurplusExitsNegative (shipId member) (cbBefore member) cbAfter] else []).

Definition validationErrors (cbAfter : Q) (ms : list PoolMember) : list ValidationError :=
  flat_map (memberErrors cbAfter) ms.

Definition setCbAfter (v : Q) (member : PoolMember) : PoolMember :=
  mkPoolMember (shipId member) (adjustedCB member) (cbBefore member) v.

(** Steps 4 and 5: validate the Article 21 rules for the share [cbAfter],
    then assign it to every member and save the pool. *)
Definition validateAndSave (now : Z) (request : CreatePoolRequest) (ms : list PoolMember)
           (poolSum cbAfter : Q) (db : DB) : Result Pool * DB :=
  match validationErrors cbAfter ms with
  | [] =>
      let pool := mkPool (PoolAt now) (reqName request) (reqYear request)
                         (map (setCbAfter cbAfter) ms) poolSum now in
      PostgresPoolRepository.save pool db
  | errors => (Err (Article21Violation errors), db)
  end.

Definition createPool (now : Z) (request : CreatePoolRequest) (db : DB) : Result Pool * DB :=
  match loadMembers (reqYear request) (memberShipIds request) db with
  | Err e => (Err e, db)
  | Ok ms =>
      (* Step 2: pool sum must be >= 0 for the pool to be valid *)
      let poolSum := sumAdjusted ms in
      if Qltb poolSum 0 then (Err NegativePoolSum, db)
      else
        (* Step 3: equal distribution *)
        let cbAfter := poolSum / inject_Z (Z.of_nat (List.length ms)) in
        validateAndSave now request ms poolSum cbAfter db
  end.

(** Retrieves all pools from the repository. *)
Definition getAllPools (db : DB) : list Pool := PostgresPoolRepository.findAll db.

End PoolUseCase.

(** ** Observations, operation sequences and invariants used by the statements *)

(** The ledger value of one ship and year, as [findByShipAndYear] reads it. *)
Definition ledgerValue (shipId : string) (year : Z) (db : DB) : option Q :=
  option_map PostgresShipComplianceRepository.cbGco2eq
             (PostgresShipComplianceRepository.findByShipAndYear shipId year db).

(** The rows [applyBankedSurplusToShip] selects: the bank entries of one ship
    and year, oldest [created_at] first. *)
Definition queueOf (shipId : string) (year : Z) (rows : list BankEntryRow) : list BankEntryRow :=
  orderByCreatedAt (filter (beMatches shipId year) rows).

Definition bankQueue (shipId : string) (year : Z) (db : DB) : list BankEntryRow :=
  queueOf shipId year (bank_entries db).

(** The ledger rows of one ship and year. *)
Definition ledgerRows (shipId : string) (year : Z) (db : DB) : list ShipComplianceRow :=
  filter (scMatches shipId year) (ship_compliance db).






(** [bank_entries.id] is a primary key drawn from the table's sequence. *)
Definition bankIdsFresh (db : DB) : Prop :=
  NoDup (map be_id (bank_entries db)) /\
  Forall (fun i => (i < bank_entries_id_seq db)%Z) (map be_id (bank_entries db)).

(** [UNIQUE(ship_id, year)] of [ship_compliance]. *)
Definition ledgerUnique (db : DB) : Prop :=
  NoDup (map (fun r => (sc_ship_id r, sc_year r)) (ship_compliance db)).




(** The two fairness rules of Article 21 for one member, as propositions. *)
Definition deficitExitsWorse (cbAfter : Q) (m : PoolMember) : Prop :=
  cbBefore m < 0 /\ cbAfter < cbBefore m.

Definition surplusExitsNegative (cbAfter : Q) (m : PoolMember) : Prop :=
  0 < cbBefore m /\ cbAfter < 0.

Definition violatesArticle21 (cbAfter : Q) (m : PoolMember) : Prop :=
  deficitExitsWorse cbAfter m \/ surplusExitsNegative cbAfter m.



(** The [pool_members] rows [save] writes for a pool stored under [id]. *)
Definition memberRows (id : Z) (ms : list PoolMember) : list PoolMemberRow :=
  map (fun m => mkPoolMemberRow id (shipId m) (cbBefore m) (cbAfter m)) ms.

(** ** Scenarios *)

Module Scenario.

(** E1 = -10000, E2 = +15000, E3 = +5000 in 2024. *)
Definition fleet : DB :=
  mkDB [mkRouteRow "R001" 2024 91.5 5000000; mkRouteRow "R002" 2024 88.2 6000000]
       [mkShipComplianceRow 1 "E1" 2024 (-10000);
        mkShipComplianceRow 2 "E2" 2024 15000;
        mkShipComplianceRow 3 "E3" 2024 5000] 4
       [] 1 [] 1 [].

(** E2 holds three bank entries, inserted out of timestamp order. *)
Definition banked : DB :=
  mkDB []
       [mkShipComplianceRow 1 "E1" 2024 10000;
        mkShipComplianceRow 2 "E2" 2024 4000] 3
       [mkBankEntryRow 1 "E2" 2024 5000 20;
        mkBankEntryRow 2 "E1" 2024 700 15;
        mkBankEntryRow 3 "E2" 2024 3000 10;
        mkBankEntryRow 4 "E2" 2024 2000 30] 5
       [] 1 [].

Definition poolOfThree : CreatePoolRequest :=
  mkCreatePoolRequest (Some "Strategic Pool 2024"%string) 2024 ["E1"; "E2"; "E3"]%string.

Definition poolWithUnknown : CreatePoolRequest :=
  mkCreatePoolRequest None 2024 ["E2"; "E9"; "E1"]%string.

Definition poolWithTwin : CreatePoolRequest :=
  mkCreatePoolRequest None 2024 ["E2"; "E2"]%string.


End Scenario.

(** ** [ShipComplianceUseCase] *)

Module ShipComplianceUseCase.


(** Compute and save compliance balance for a ship based on route data. *)
Definition computeComplianceBalance (shipId : string) (year : Z) (routeId : string) (db : DB)
  : Result PostgresShipComplianceRepository.ShipCompliance * DB :=
  PostgresShipComplianceRepository.computeAndSave shipId year routeId db.


End ShipComplianceUseCase.

(** ** [RouteUseCase]

    The use case is written against the [RouteRepository] port; its read
    methods are taken as a record of functions over one database snapshot. *)

Module RouteUseCase.

(** Compliance target for GHG intensity as per Fuel EU Maritime regulation. *)
Definition COMPLIANCE_TARGET : Q := 89.3368.

Record Route : Type := mkRoute {
  routeId : string;
  vesselType : string;
  fuelType : string;
  year : Z;
  ghgIntensity : Q;
  fuelConsumption : Q;
  distance : Q;
  totalEmissions : Q;
  isBaseline : bool
}.

Record Baseline : Type := mkBaseline {
  b_routeId : string;
  b_year : Z;
  b_ghgIntensity : Q;
  b_fuelConsumption : Q;
  b_distance : Q;
  b_totalEmissions : Q
}.

Record ComparisonData : Type := mkComparisonData {
  baseline : Baseline;
  comparison : Route;
  percentDifference : Q;
  complianceTarget : Q;
  isCompliant : bool
}.

Record RouteRepository : Type := mkRouteRepository {
  findAll : list Route;
  findByRouteId : string -> option Route;
  findBaseline : string -> Z -> option Baseline
}.

Inductive RouteError : Type :=
| RouteNotFound (routeId : string)
    (* `Route ${routeId} not found` *)
| BaselineNotFound (routeId : string)
    (* `Baseline not found for route ${routeId}. Please set this route as baseline first.` *)
| NoBaselineRoute.
    (* 'No baseline route found. Please set a baseline route first.' *)

Inductive RouteResult (A : Type) : Type :=
| RouteOk (a : A)
| RouteErr (e : RouteError).
Arguments RouteOk {A} a.
Arguments RouteErr {A} e.

(** The baseline record built from a route's own data. *)
Definition baselineOfRoute (route : Route) : Baseline :=
  mkBaseline (routeId route) (year route) (ghgIntensity route) (fuelConsumption route)
             (distance route) (totalEmissions route).

(** One comparison: percent difference [((current / baseline) - 1) * 100]
    and the compliance check against the regulatory target. *)
Definition compare (b : Baseline) (route : Route) : ComparisonData :=
  let percentDifference := ((ghgIntensity route / b_ghgIntensity b) - 1) * 100 in
  let isCompliant := Qle_bool (ghgIntensity route) COMPLIANCE_TARGET in
  mkComparisonData b route percentDifference COMPLIANCE_TARGET isCompliant.

Definition getAllRoutes (repo : RouteRepository) : list Route := findAll repo.

(** Baseline lookup of [getComparison]: the requested year, then the route's
    own year, then the route itself when it is marked as baseline. *)
Definition getComparison (repo : RouteRepository) (routeId : string) (year0 : Z)
  : RouteResult ComparisonData :=
  match findByRouteId repo routeId with
  | None => RouteErr (RouteNotFound routeId)
  | Some route =>
      let found :=
        match findBaseline repo routeId year0 with
        | Some b => Some b
        | None =>
            match findBaseline repo routeId (year route) with
            | Some b => Some b
            | None => if isBaseline route then Some (baselineOfRoute route) else None
            end
        end in
      match found with
      | None => RouteErr (BaselineNotFound routeId)
      | Some b => RouteOk (compare b route)
      end
  end.

(** [if (year)]: an absent year and the year 0 are both falsy. *)
Definition givenYear (year0 : option Z) : option Z :=
  match year0 with
  | Some y => if (y =? 0)%Z then None else Some y
  | None => None
  end.

Definition getAllComparisons (repo : RouteRepository) (year0 : option Z)
  : RouteResult (list ComparisonData) :=
  let allRoutes := findAll repo in
  match find isBaseline allRoutes with
  | None => RouteErr NoBaselineRoute
  | Some baselineRoute =>
      let fromTable :=
        match givenYear year0 with
        | Some y =>
            match findBaseline repo (routeId baselineRoute) y with
            | Some b => Some b
            | None => findBaseline repo (routeId baselineRoute) (year baselineRoute)
            end
        | None => findBaseline repo (routeId baselineRoute) (year baselineRoute)
        end in
      let b := match fromTable with
               | Some b => b
               | None => baselineOfRoute baselineRoute
               end in
      let routesToCompare :=
        match givenYear year0 with
        | Some y => filter (fun r => Z.eqb (year r) y) allRoutes
        | None => allRoutes
        end in
      RouteOk (map (compare b) routesToCompare)
  end.

End RouteUseCase.

(** ** Requests to the engine and what they must keep *)

(** The write entry points: compute through [ShipComplianceUseCase], bank and
    apply through their HTTP handlers, pool creation through [PoolUseCase]. *)
Inductive Request : Type :=
| ReqCompute (shipId : string) (year : Z) (routeId : string)
| ReqBank (now : Z) (shipId : string) (year : Z) (amount : Q)
| ReqApply (shipId : string) (year : Z) (amount : Q)
| ReqCreatePool (now : Z) (request : CreatePoolRequest).

(** The database a request leaves behind, whether it succeeds or fails. *)
Definition handle (req : Request) (db : DB) : DB :=
  match req with
  | ReqCompute shipId year routeId =>
      snd (ShipComplianceUseCase.computeComplianceBalance shipId year routeId db)
  | ReqBank now shipId year amount =>
      snd (BankingRoutes.postBankingBank now shipId year amount db)
  | ReqApply shipId year amount =>
      snd (BankingRoutes.postBankingApply shipId year amount db)
  | ReqCreatePool now request =>
      snd (PoolUseCase.createPool now request db)
  end.

Definition handleAll (reqs : list Request) (db : DB) : DB :=
  fold_left (fun d req => handle req d) reqs db.

(** The keys and references [schema.sql] declares on the four tables the
    engine writes: [id] of [ship_compliance], [bank_entries] and [pools] drawn
    from their sequences, [UNIQUE(ship_id, year)], the primary key
    [(pool_id, ship_id)] of [pool_members] and its reference to [pools]. *)
Definition schemaConstraints (db : DB) : Prop :=
  ledgerUnique db /\
  NoDup (map sc_id (ship_compliance db)) /\
  Forall (fun i => (i < ship_compliance_id_seq db)%Z) (map sc_id (ship_compliance db)) /\
  bankIdsFresh db /\
  NoDup (map p_id (pools db)) /\
  Forall (fun i => (i < pools_id_seq db)%Z) (map p_id (pools db)) /\
  NoDup (map (fun r => (pm_pool_id r, pm_ship_id r)) (pool_members db)) /\
  Forall (fun r => In (pm_pool_id r) (map p_id (pools db))) (pool_members db).



(** Newest first. *)
Fixpoint newestFirst (l : list Pool) : Prop :=
  match l with
  | [] => True
  | p :: l' => (forall q, In q l' -> (createdAt q <= createdAt p)%Z) /\ newestFirst l'
  end.

(** * Proofs *)

(** ** Comparisons *)

Lemma Qle_bool_false (x y : Q) : Qle_bool x y = false <-> y < x.
Proof.
  split; intro H.
  - apply Qnot_le_lt. intro Hle. apply Qle_bool_iff in Hle. congruence.
  - destruct (Qle_bool x y) eqn:E; [|reflexivity].
    apply Qle_bool_iff in E. exfalso. apply (Qlt_not_le _ _ H E).
Qed.

Lemma Qltb_true (x y : Q) : Qltb x y = true <-> x < y.
Proof.
  unfold Qltb. rewrite negb_true_iff. apply Qle_bool_false.
Qed.

Lemma Qltb_false (x y : Q) : Qltb x y = false <-> y <= x.
Proof.
  unfold Qltb. rewrite negb_false_iff. apply Qle_bool_iff.
Qed.

Ltac qbools :=
  repeat match goal with
         | H : Qltb _ _ = true |- _ => apply Qltb_true in H
         | H : Qltb _ _ = false |- _ => apply Qltb_false in H
         | H : Qle_bool _ _ = true |- _ => apply Qle_bool_iff in H
         | H : Qle_bool _ _ = false |- _ => apply Qle_bool_false in H
         end.

(** ** Tables: [WHERE], [UPDATE], [DELETE] and [ORDER BY] *)

Section Tables.
Context {A : Type}.

Lemma filter_map_stable (p : A -> bool) (g : A -> A) (l : list A) :
  (forall x, p (g x) = p x) -> filter p (map g l) = map g (filter p l).
Proof.
  intro Hp. induction l as [|x l IH]; simpl; [reflexivity|].
  rewrite Hp. destruct (p x); simpl; now rewrite IH.
Qed.


Lemma map_id_on (g : A -> A) (l : list A) :
  (forall x, In x l -> g x = x) -> map g l = l.
Proof.
  induction l as [|x l IH]; simpl; intro H; [reflexivity|].
  rewrite H by now left. rewrite IH; [reflexivity|]. intros; apply H; now right.
Qed.


Lemma NoDup_map_filter {K : Type} (key : A -> K) (keep : A -> bool) : forall rows : list A,
  NoDup (map key rows) -> NoDup (map key (filter keep rows)).
Proof.
  intros rows. induction rows as [|row rows IH]; simpl; intro Hnd; [constructor|].
  apply NoDup_cons_iff in Hnd. destruct Hnd as [Hfresh Hrest].
  destruct (keep row); simpl; [|now apply IH].
  apply NoDup_cons_iff. split; [|now apply IH].
  intro Hin. apply Hfresh. apply in_map_iff in Hin. destruct Hin as [other [Hkey Hin]].
  apply filter_In in Hin. apply in_map_iff. exists other. tauto.
Qed.

End Tables.

Section OrderBy.













End OrderBy.

(** ** The bank-entry queue under [consumeEntries] *)

Section Queue.
Variables (shipId : string) (year : Z).

Local Abbreviation queue := (queueOf shipId year).










Lemma update_ids (i : Z) (r : Q) (rows : list BankEntryRow) :
  map be_id (updateWhere (beHasId i) (PostgresBankingRepository.subAmount r) rows)
  = map be_id rows.
Proof.
  unfold updateWhere. rewrite map_map. apply map_ext.
  intro x. destruct (beHasId i x); reflexivity.
Qed.

Lemma delete_ids_bound (P : Z -> Prop) (q : BankEntryRow -> bool) (rows : list BankEntryRow) :
  Forall P (map be_id rows) -> Forall P (map be_id (deleteWhere q rows)).
Proof.
  unfold deleteWhere. induction rows as [|x l IH]; simpl; intro H; [constructor|].
  inversion H; subst. destruct (q x); simpl; auto.
Qed.

End Queue.

Section Consume.
Variables (shipId : string) (year : Z).

Local Abbreviation consumeEntries := PostgresBankingRepository.consumeEntries.
Local Abbreviation subAmount := PostgresBankingRepository.subAmount.


(** The loop writes to [bank_entries] only. *)
Lemma consumeEntries_frame (es : list BankEntryRow) : forall (r : Q) (db : DB),
  routes (consumeEntries es r db) = routes db /\
  ship_compliance (consumeEntries es r db) = ship_compliance db /\
  ship_compliance_id_seq (consumeEntries es r db) = ship_compliance_id_seq db /\
  bank_entries_id_seq (consumeEntries es r db) = bank_entries_id_seq db /\
  pools (consumeEntries es r db) = pools db /\
  pools_id_seq (consumeEntries es r db) = pools_id_seq db /\
  pool_members (consumeEntries es r db) = pool_members db.
Proof.
  induction es as [|e rest IH]; intros r db; simpl; [tauto|].
  destruct (Qle_bool r 0); [tauto|].
  destruct (Qle_bool (be_amount_gco2eq e) r);
    match goal with |- context [consumeEntries rest ?r' ?db'] =>
      destruct (IH r' db') as (H1 & H2 & H3 & H4 & H5 & H6 & H7) end;
    rewrite H1, H2, H3, H4, H5, H6, H7; simpl; tauto.
Qed.



Lemma consumeEntries_fresh (es : list BankEntryRow) : forall (r : Q) (db : DB),
  bankIdsFresh db -> bankIdsFresh (consumeEntries es r db).
Proof.
  induction es as [|e rest IH]; intros r db Hf; simpl; [exact Hf|].
  destruct (Qle_bool r 0); [exact Hf|].
  destruct Hf as [Hnd Hb].
  destruct (Qle_bool (be_amount_gco2eq e) r); apply IH; split; simpl.
  - now apply NoDup_map_filter.
  - now apply delete_ids_bound.
  - now rewrite update_ids.
  - now rewrite update_ids.
Qed.

(** *** The same loop on the queue alone *)





End Consume.

(** ** Ledger and bank totals under one banking call *)

Section BankingSteps.
Variables (shipId : string) (year : Z).

Local Abbreviation bankSurplusForShip := PostgresBankingRepository.bankSurplusForShip.
Local Abbreviation applyBankedSurplusToShip := PostgresBankingRepository.applyBankedSurplusToShip.
Local Abbreviation bankedTotal := PostgresBankingRepository.getBankedAmountForShip.
Local Abbreviation addCb := PostgresBankingRepository.addCb.

Lemma filter_updateWhere_same {A : Type} (p : A -> bool) (f : A -> A) (l : list A) :
  (forall x, p (f x) = p x) -> filter p (updateWhere p f l) = map f (filter p l).
Proof.
  intro Hp. induction l as [|x l IH]; simpl; [reflexivity|].
  destruct (p x) eqn:E; [rewrite Hp|]; rewrite E; simpl; now rewrite IH.
Qed.


Lemma ledgerValue_rows (db : DB) :
  ledgerValue shipId year db =
  match ledgerRows shipId year db with
  | [] => None
  | row :: _ => Some (sc_cb_gco2eq row)
  end.
Proof.
  unfold ledgerValue, ledgerRows, PostgresShipComplianceRepository.findByShipAndYear.
  destruct (filter (scMatches shipId year) (ship_compliance db)); reflexivity.
Qed.




(** What a successful [applyBankedSurplusToShip] returns. *)
Lemma apply_result (amount : Q) (db : DB) :
  amount <= bankedTotal shipId year db ->
  applyBankedSurplusToShip shipId year amount db =
  (Ok tt,
   let db1 := PostgresBankingRepository.consumeEntries (bankQueue shipId year db) amount db in
   with_ship_compliance
     (updateWhere (scMatches shipId year) (addCb amount) (ship_compliance db1))
     (ship_compliance_id_seq db1) db1).
Proof.
  intro H. apply Qltb_false in H.
  unfold PostgresBankingRepository.applyBankedSurplusToShip.
  unfold PostgresBankingRepository.getBankedAmountForShip in H. rewrite H. reflexivity.
Qed.

Lemma apply_ok_inv (amount : Q) (db db' : DB) (u : unit) :
  applyBankedSurplusToShip shipId year amount db = (Ok u, db') ->
  amount <= bankedTotal shipId year db.
Proof.
  unfold PostgresBankingRepository.applyBankedSurplusToShip,
         PostgresBankingRepository.getBankedAmountForShip.
  destruct (Qltb _ amount) eqn:E; [discriminate|]. intros _. now apply Qltb_false.
Qed.




End BankingSteps.

(** ** Banking: the claims *)

Lemma postBankingBank_ok (now : Z) (shipId : string) (year : Z) (amount q : Q) (db db' : DB) :
  BankingRoutes.postBankingBank now shipId year amount db = (Ok q, db') ->
  0 < amount /\
  PostgresBankingRepository.bankSurplusForShip now shipId year amount db = (Ok tt, db').
Proof.
  unfold BankingRoutes.postBankingBank.
  destruct (String.eqb shipId ""); [discriminate|].
  destruct (year <=? 0)%Z; [discriminate|].
  destruct (Qle_bool amount 0) eqn:E; [discriminate|]. qbools.
  destruct (PostgresBankingRepository.bankSurplusForShip now shipId year amount db)
    as [[[]|e] db1]; [|discriminate].
  intro H. injection H as _ <-. now split.
Qed.

Lemma postBankingApply_ok (shipId : string) (year : Z) (amount q : Q) (db db' : DB) :
  BankingRoutes.postBankingApply shipId year amount db = (Ok q, db') ->
  0 < amount /\
  PostgresBankingRepository.applyBankedSurplusToShip shipId year amount db = (Ok tt, db').
Proof.
  unfold BankingRoutes.postBankingApply.
  destruct (String.eqb shipId ""); [discriminate|].
  destruct (year <=? 0)%Z; [discriminate|].
  destruct (Qle_bool amount 0) eqn:E; [discriminate|]. qbools.
  destruct (PostgresBankingRepository.applyBankedSurplusToShip shipId year amount db)
    as [[[]|e] db1]; [|discriminate].
  intro H. injection H as _ <-. now split.
Qed.





(** C5.  When the ledger value is below the requested amount, the repository
    call fails with the insufficient-surplus error and hands the database back
    as it was, and so does the HTTP handler, whatever the request; the legacy
    use case, which clamps the amount with [Math.min], never changes the
    database either and never reports a banked amount. *)
Theorem bank_insufficient_surplus (now : Z) (shipId : string) (year : Z) (amount v : Q) (db : DB) :
  ledgerValue shipId year db = Some v ->
  v < amount ->
  PostgresBankingRepository.bankSurplusForShip now shipId year amount db
    = (Err (InsufficientSurplus v amount), db) /\
  (exists e, BankingRoutes.postBankingBank now shipId year amount db = (Err e, db)) /\
  (shipId <> ""%string -> (0 < year)%Z -> 0 < amount ->
   BankingRoutes.postBankingBank now shipId year amount db
     = (Err (InsufficientSurplus v amount), db)) /\
  snd (BankingUseCase.bankSurplus year amount db) = db /\
  (forall r, fst (BankingUseCase.bankSurplus year amount db) = Ok r ->
             BankingUseCase.success r = false /\ BankingUseCase.applied r = 0).
Proof.
  intros Hv Hlt.
  assert (Hrepo : PostgresBankingRepository.bankSurplusForShip now shipId year amount db
                  = (Err (InsufficientSurplus v amount), db)).
  { rewrite ledgerValue_rows in Hv. unfold ledgerRows in Hv.
    unfold PostgresBankingRepository.bankSurplusForShip.
    destruct (filter (scMatches shipId year) (ship_compliance db)) as [|row rows];
      [discriminate|].
    injection Hv as ->. apply Qltb_true in Hlt. now rewrite Hlt. }
  split; [exact Hrepo|]. split; [|split; [|split]].
  - unfold BankingRoutes.postBankingBank.
    destruct (String.eqb shipId ""); [eexists; reflexivity|].
    destruct (year <=? 0)%Z; [eexists; reflexivity|].
    destruct (Qle_bool amount 0); [eexists; reflexivity|].
    rewrite Hrepo. eexists; reflexivity.
  - intros Hs Hy Ha. unfold BankingRoutes.postBankingBank.
    apply String.eqb_neq in Hs. rewrite Hs.
    assert (Ey : (year <=? 0)%Z = false) by (apply Z.leb_gt; lia). rewrite Ey.
    apply Qle_bool_false in Ha. rewrite Ha. now rewrite Hrepo.
  - unfold BankingUseCase.bankSurplus.
    destruct (Qle_bool _ 0); reflexivity.
  - unfold BankingUseCase.bankSurplus. intros r.
    destruct (Qle_bool _ 0); simpl; [|discriminate].
    intro H. injection H as <-. now split.
Qed.

(** Scenario D: E1 holds 10000 and asks to bank 15000. *)
Lemma bank_insufficient_surplus_witness :
  PostgresBankingRepository.bankSurplusForShip 50 "E1" 2024 15000 Scenario.banked
    = (Err (InsufficientSurplus 10000 15000), Scenario.banked) /\
  (exists e, BankingRoutes.postBankingBank 50 "E1" 2024 15000 Scenario.banked
             = (Err e, Scenario.banked)) /\
  ("E1"%string <> ""%string -> (0 < 2024)%Z -> 0 < 15000 ->
   BankingRoutes.postBankingBank 50 "E1" 2024 15000 Scenario.banked
     = (Err (InsufficientSurplus 10000 15000), Scenario.banked)) /\
  snd (BankingUseCase.bankSurplus 2024 15000 Scenario.banked) = Scenario.banked /\
  (forall r, fst (BankingUseCase.bankSurplus 2024 15000 Scenario.banked) = Ok r ->
             BankingUseCase.success r = false /\ BankingUseCase.applied r = 0).
Proof.
  apply (bank_insufficient_surplus 50 "E1" 2024 15000 10000 Scenario.banked).
  - reflexivity.
  - reflexivity.
Defined.

(** ** The ledger under [save] and [computeAndSave] *)

Section Ledger.
Variables (shipId : string) (year : Z).

Local Abbreviation save := PostgresShipComplianceRepository.save.
Local Abbreviation computeAndSave := PostgresShipComplianceRepository.computeAndSave.
Local Abbreviation setCb := PostgresShipComplianceRepository.setCb.
Local Abbreviation scKey := (fun r : ShipComplianceRow => (sc_ship_id r, sc_year r)).

Lemma scMatches_key (r : ShipComplianceRow) :
  scMatches shipId year r = true <-> scKey r = (shipId, year).
Proof.
  unfold scMatches. rewrite andb_true_iff, String.eqb_eq, Z.eqb_eq.
  split; [intros [-> ->]; reflexivity|intro H; injection H; auto].
Qed.

Lemma key_absent (rows : list ShipComplianceRow) :
  filter (scMatches shipId year) rows = [] -> ~ In (shipId, year) (map scKey rows).
Proof.
  intros Hf Hin. apply in_map_iff in Hin. destruct Hin as [r [Hk Hr]].
  assert (In r (filter (scMatches shipId year) rows))
    by (apply filter_In; split; [exact Hr|now apply scMatches_key]).
  rewrite Hf in H. contradiction.
Qed.

(** Under [UNIQUE(ship_id, year)] a key selects at most one row. *)
Lemma unique_key_one_row (rows : list ShipComplianceRow) (old : ShipComplianceRow)
      (more : list ShipComplianceRow) :
  NoDup (map scKey rows) ->
  filter (scMatches shipId year) rows = old :: more -> more = [].
Proof.
  induction rows as [|x l IH]; simpl; intros Hnd Hf; [discriminate|].
  inversion Hnd as [|? ? Hx Hl]; subst.
  destruct (scMatches shipId year x) eqn:E; [|now apply IH].
  injection Hf as -> Hmore. apply scMatches_key in E.
  destruct more as [|z more']; [reflexivity|]. exfalso. apply Hx.
  assert (Hz : In z (filter (scMatches shipId year) l)) by (rewrite Hmore; now left).
  apply filter_In in Hz. destruct Hz as [Hz Hm]. apply scMatches_key in Hm.
  rewrite E, <- Hm. now apply (in_map scKey).
Qed.

Lemma updateWhere_keys (p : ShipComplianceRow -> bool) (cb : Q) (rows : list ShipComplianceRow) :
  map scKey (updateWhere p (setCb cb) rows) = map scKey rows.
Proof.
  unfold updateWhere. rewrite map_map. apply map_ext. intro x. destruct (p x); reflexivity.
Qed.

(** [INSERT .. ON CONFLICT (ship_id, year) DO UPDATE] leaves exactly one row
    for the key, holding the saved value. *)
Lemma save_upsert (cb : Q) (db : DB) :
  ledgerUnique db ->
  exists saved db' row,
    save (PostgresShipComplianceRepository.mkShipCompliance None shipId year cb) db
      = (Ok saved, db') /\
    PostgresShipComplianceRepository.cbGco2eq saved = cb /\
    ledgerRows shipId year db' = [row] /\
    sc_cb_gco2eq row = cb /\
    ledgerUnique db' /\
    routes db' = routes db.
Proof.
  intro Hu. unfold PostgresShipComplianceRepository.save. cbn [PostgresShipComplianceRepository.id
    PostgresShipComplianceRepository.shipId PostgresShipComplianceRepository.year
    PostgresShipComplianceRepository.cbGco2eq].
  destruct (filter (scMatches shipId year) (ship_compliance db)) as [|old more] eqn:Ef.
  - do 3 eexists. split; [reflexivity|]. split; [reflexivity|].
    unfold ledgerRows, ledgerUnique. cbn [ship_compliance with_ship_compliance routes].
    rewrite filter_app, Ef. cbn [filter app].
    assert (Em : scMatches shipId year
                   (mkShipComplianceRow (ship_compliance_id_seq db) shipId year cb) = true)
      by (apply scMatches_key; reflexivity).
    rewrite Em. split; [reflexivity|]. split; [reflexivity|]. split; [|reflexivity].
    rewrite map_app. apply NoDup_app; [exact Hu|repeat constructor; intros []|].
    intros k Hk [<-|[]]. now apply (key_absent _ Ef).
  - pose proof (unique_key_one_row _ _ _ Hu Ef) as ->.
    do 3 eexists. split; [reflexivity|]. split; [reflexivity|].
    unfold ledgerRows, ledgerUnique. cbn [ship_compliance with_ship_compliance routes].
    rewrite filter_updateWhere_same by reflexivity. rewrite Ef. cbn [map].
    split; [reflexivity|]. split; [reflexivity|]. split; [|reflexivity].
    now rewrite updateWhere_keys.
Qed.

Lemma computeAndSave_unique (routeId : string) (db : DB) :
  ledgerUnique db -> ledgerUnique (snd (computeAndSave shipId year routeId db)).
Proof.
  intro Hu. unfold PostgresShipComplianceRepository.computeAndSave.
  destruct (PostgresShipComplianceRepository.resolveRoute routeId year db) as [route|e];
    [|exact Hu].
  destruct (save_upsert
              ((PostgresShipComplianceRepository.COMPLIANCE_TARGET - r_ghg_intensity route)
               * r_fuel_consumption route) db Hu)
    as (saved & db' & row & Hs & _ & _ & _ & Hu' & _).
  rewrite Hs. exact Hu'.
Qed.


End Ledger.



(** ** Compliance balance: the claims *)






(** ** Pool creation *)

Section Pooling.

Local Abbreviation loadMembers := PoolUseCase.loadMembers.
Local Abbreviation sumAdjusted := PoolUseCase.sumAdjusted.
Local Abbreviation validationErrors := PoolUseCase.validationErrors.
Local Abbreviation memberErrors := PoolUseCase.memberErrors.
Local Abbreviation setCbAfter := PoolUseCase.setCbAfter.
Local Abbreviation share ms := (sumAdjusted ms / inject_Z (Z.of_nat (List.length ms))).

(** *** Step 1 *)

Lemma loadMembers_ok (y : Z) (db : DB) (ids : list string) : forall ms,
  loadMembers y ids db = Ok ms ->
  map shipId ms = ids /\
  Forall (fun m => ledgerValue (shipId m) y db = Some (cbBefore m) /\
                   adjustedCB m = cbBefore m) ms.
Proof.
  induction ids as [|s rest IH]; intros ms; cbn [PoolUseCase.loadMembers].
  - intro H; injection H as <-. split; [reflexivity|constructor].
  - destruct (PostgresShipComplianceRepository.findByShipAndYear s y db) as [sc|] eqn:Ef;
      [|discriminate].
    destruct (loadMembers y rest db) as [ms'|e]; [|discriminate].
    intro H; injection H as <-. destruct (IH ms' eq_refl) as [Hids Hall].
    split; [simpl; now rewrite Hids|].
    constructor; [|exact Hall]. simpl. unfold ledgerValue. rewrite Ef. now split.
Qed.

(** The first member without a ledger row decides the error. *)
Lemma loadMembers_err (y : Z) (db : DB) (ids : list string) : forall e,
  loadMembers y ids db = Err e ->
  exists before s after,
    ids = before ++ s :: after /\
    Forall (fun x => ledgerValue x y db <> None) before /\
    ledgerValue s y db = None /\
    e = MissingBalance s y.
Proof.
  induction ids as [|s rest IH]; intros e; cbn [PoolUseCase.loadMembers]; [discriminate|].
  destruct (PostgresShipComplianceRepository.findByShipAndYear s y db) as [sc|] eqn:Ef.
  - destruct (loadMembers y rest db) as [ms'|e']; [discriminate|].
    intro H; injection H as <-.
    destruct (IH e' eq_refl) as (before & s0 & after & -> & Hb & Hs0 & ->).
    exists (s :: before), s0, after. repeat split; try assumption.
    constructor; [|exact Hb]. unfold ledgerValue. rewrite Ef. discriminate.
  - intro H; injection H as <-. exists [], s, rest. repeat split.
    + constructor.
    + unfold ledgerValue. now rewrite Ef.
Qed.

Lemma loadMembers_missing (y : Z) (db : DB) (ids : list string) (s : string) :
  In s ids -> ledgerValue s y db = None -> exists e, loadMembers y ids db = Err e.
Proof.
  intros Hin Hnone.
  destruct (loadMembers y ids db) as [ms|e] eqn:E; [|now exists e]. exfalso.
  destruct (loadMembers_ok y db ids ms E) as [Hids Hall].
  rewrite <- Hids in Hin. apply in_map_iff in Hin. destruct Hin as [m [Hm Hin]].
  rewrite Forall_forall in Hall. destruct (Hall m Hin) as [Hv _]. congruence.
Qed.

(** *** Steps 2 and 3 *)




(** A non-negative pool sum gives a non-negative equal share. *)
Lemma share_nonneg (ms : list PoolMember) : 0 <= sumAdjusted ms -> 0 <= share ms.
Proof.
  intro H. unfold Qdiv. apply Qmult_le_0_compat; [exact H|].
  apply Qinv_le_0_compat. replace 0 with (inject_Z 0) by reflexivity.
  rewrite <- Zle_Qle. lia.
Qed.



(** *** Step 4 *)

Lemma memberErrors_nil (c : Q) (m : PoolMember) :
  memberErrors c m = [] <-> ~ violatesArticle21 c m.
Proof.
  unfold PoolUseCase.memberErrors, violatesArticle21, deficitExitsWorse, surplusExitsNegative.
  destruct (Qltb (cbBefore m) 0) eqn:E1, (Qltb c (cbBefore m)) eqn:E2,
           (Qltb 0 (cbBefore m)) eqn:E3, (Qltb c 0) eqn:E4;
    qbools; cbn [andb app]; split; intro H; try discriminate; try reflexivity;
    try (intros [[? ?]|[? ?]]; lra); exfalso; apply H; auto.
Qed.


Lemma validationErrors_nil (c : Q) (ms : list PoolMember) :
  validationErrors c ms = [] <-> Forall (fun m => ~ violatesArticle21 c m) ms.
Proof.
  unfold PoolUseCase.validationErrors. induction ms as [|m ms IH]; simpl.
  - split; [constructor|reflexivity].
  - split.
    + intro H. apply app_eq_nil in H. destruct H as [H1 H2].
      constructor; [now apply memberErrors_nil|now apply IH].
    + intro H. inversion H as [|? ? Hm Hms]; subst.
      apply memberErrors_nil in Hm. apply IH in Hms. now rewrite Hm, Hms.
Qed.



Lemma share_no_errors (ms : list PoolMember) :
  0 <= sumAdjusted ms -> validationErrors (share ms) ms = [].
Proof.
  intro H. pose proof (share_nonneg ms H) as Hs.
  apply validationErrors_nil. apply Forall_forall. intros m _.
  unfold violatesArticle21, deficitExitsWorse, surplusExitsNegative.
  revert Hs. generalize (share ms). intros c Hs [[? ?]|[? ?]]; lra.
Qed.

End Pooling.

Section PoolSave.

Local Abbreviation insertMembers := PostgresPoolRepository.insertMembers.
Local Abbreviation pmHasKey := PostgresPoolRepository.pmHasKey.
Local Abbreviation share ms :=
  (PoolUseCase.sumAdjusted ms / inject_Z (Z.of_nat (List.length ms))).

Lemma insertMembers_rows (id : Z) (ms : list PoolMember) : forall rows rows',
  insertMembers id ms rows = Some rows' -> rows' = rows ++ memberRows id ms.
Proof.
  induction ms as [|m ms IH]; intros rows rows'; cbn [PostgresPoolRepository.insertMembers].
  - intro H; injection H as <-. simpl. now rewrite app_nil_r.
  - destruct (existsb (pmHasKey id (shipId m)) rows); [discriminate|].
    intro H. apply IH in H. rewrite H, <- app_assoc. reflexivity.
Qed.

(** Distinct member ids under a fresh pool id never hit the primary key. *)
Lemma insertMembers_some (id : Z) (ms : list PoolMember) : forall rows,
  (forall m, In m ms -> existsb (pmHasKey id (shipId m)) rows = false) ->
  NoDup (map shipId ms) ->
  insertMembers id ms rows <> None.
Proof.
  induction ms as [|m ms IH]; intros rows Hfree Hnd;
    cbn [PostgresPoolRepository.insertMembers]; [discriminate|].
  rewrite (Hfree m) by now left.
  inversion Hnd as [|? ? Hm Hms]; subst.
  apply IH; [|exact Hms].
  intros m' Hm'. rewrite existsb_app, (Hfree m') by now right. cbn [existsb orb].
  unfold PostgresPoolRepository.pmHasKey. cbn [pm_pool_id pm_ship_id].
  rewrite Z.eqb_refl, orb_false_r. cbn [andb]. apply String.eqb_neq.
  intro Heq. apply Hm. rewrite Heq. now apply in_map.
Qed.

Lemma save_ok (pool p' : Pool) (db db' : DB) :
  PostgresPoolRepository.save pool db = (Ok p', db') ->
  p' = mkPool (PoolNo (pools_id_seq db)) (name pool) (year pool) (members pool)
              (poolSum pool) (createdAt pool) /\
  db' = mkDB (routes db) (ship_compliance db) (ship_compliance_id_seq db)
             (bank_entries db) (bank_entries_id_seq db)
             (pools db ++ [mkPoolRow (pools_id_seq db)
                                     (PostgresPoolRepository.nameOrNull (name pool))
                                     (year pool) (createdAt pool)])
             (pools_id_seq db + 1)%Z
             (pool_members db ++ memberRows (pools_id_seq db) (members pool)).
Proof.
  unfold PostgresPoolRepository.save.
  destruct (insertMembers _ _ _) as [rows|] eqn:E; [|discriminate].
  apply insertMembers_rows in E. intro H. injection H as <- <-. rewrite E. now split.
Qed.

Lemma save_err (pool : Pool) (e : Error) (db db' : DB) :
  PostgresPoolRepository.save pool db = (Err e, db') ->
  e = SavePoolFailed /\
  db' = with_pools (pools db) (pools_id_seq db + 1)%Z db /\
  ~ (NoDup (map shipId (members pool)) /\
     Forall (fun r => pm_pool_id r <> pools_id_seq db) (pool_members db)).
Proof.
  unfold PostgresPoolRepository.save.
  destruct (insertMembers _ _ _) as [rows|] eqn:E; [discriminate|].
  intro H. injection H as <- <-. split; [reflexivity|]. split; [reflexivity|].
  intros [Hnd Hfresh]. revert E. apply insertMembers_some; [|exact Hnd].
  intros m _. cbn [pool_members with_pools].
  apply not_true_is_false. intro Hex. apply existsb_exists in Hex.
  destruct Hex as [r [Hr Hk]]. rewrite Forall_forall in Hfresh. apply (Hfresh r Hr).
  unfold PostgresPoolRepository.pmHasKey in Hk. apply andb_true_iff in Hk.
  now apply Z.eqb_eq.
Qed.

(** What a successful [createPool] went through. *)
Lemma createPool_ok (now : Z) (request : CreatePoolRequest) (db db' : DB) (pool : Pool) :
  PoolUseCase.createPool now request db = (Ok pool, db') ->
  exists ms,
    PoolUseCase.loadMembers (reqYear request) (memberShipIds request) db = Ok ms /\
    0 <= PoolUseCase.sumAdjusted ms /\
    PoolUseCase.validationErrors (share ms) ms = [] /\
    PostgresPoolRepository.save
      (mkPool (PoolAt now) (reqName request) (reqYear request)
              (map (PoolUseCase.setCbAfter (share ms)) ms) (PoolUseCase.sumAdjusted ms) now) db
    = (Ok pool, db').
Proof.
  unfold PoolUseCase.createPool, PoolUseCase.validateAndSave.
  destruct (PoolUseCase.loadMembers _ _ db) as [ms|e]; [|discriminate].
  destruct (Qltb (PoolUseCase.sumAdjusted ms) 0) eqn:E; [discriminate|]. qbools.
  destruct (PoolUseCase.validationErrors (share ms) ms) eqn:Ev; [|discriminate].
  intro H. exists ms. repeat split; assumption.
Qed.

(** What a failed [createPool] ran into. *)
Lemma createPool_err (now : Z) (request : CreatePoolRequest) (db db' : DB) (e : Error) :
  PoolUseCase.createPool now request db = (Err e, db') ->
  (db' = db /\
   (PoolUseCase.loadMembers (reqYear request) (memberShipIds request) db = Err e \/
    e = NegativePoolSum)) \/
  (e = SavePoolFailed /\
   db' = with_pools (pools db) (pools_id_seq db + 1)%Z db /\
   ~ (NoDup (memberShipIds request) /\
      Forall (fun r => pm_pool_id r <> pools_id_seq db) (pool_members db))).
Proof.
  unfold PoolUseCase.createPool, PoolUseCase.validateAndSave.
  destruct (PoolUseCase.loadMembers _ _ db) as [ms|e0] eqn:El.
  - destruct (Qltb (PoolUseCase.sumAdjusted ms) 0) eqn:E.
    + intro H. injection H as <- <-. left. split; [reflexivity|now right].
    + qbools. rewrite (share_no_errors ms E). intro H. right.
      apply save_err in H. cbn [members] in H. rewrite map_map in H.
      cbn [shipId PoolUseCase.setCbAfter] in H.
      destruct (loadMembers_ok _ _ _ _ El) as [Hids _].
      rewrite (map_ext _ shipId) in H by reflexivity. rewrite Hids in H. exact H.
  - intro H. injection H as <- <-. left. split; [reflexivity|now left].
Qed.

End PoolSave.

(** ** Pool creation: the claims *)





(** C6.  A successful [createPool] changes nothing but the pool tables: the
    ledger table, every ship's ledger value, the bank entries and the routes
    are as before; [pools] gains one row and [pool_members] one row per member
    of the returned pool, carrying its [cbBefore] and [cbAfter]. *)
Theorem createPool_writes_pool_only (now : Z) (request : CreatePoolRequest) (db db' : DB)
        (pool : Pool) :
  PoolUseCase.createPool now request db = (Ok pool, db') ->
  ship_compliance db' = ship_compliance db /\
  ship_compliance_id_seq db' = ship_compliance_id_seq db /\
  (forall s y, ledgerValue s y db' = ledgerValue s y db) /\
  bank_entries db' = bank_entries db /\
  bank_entries_id_seq db' = bank_entries_id_seq db /\
  routes db' = routes db /\
  exists id,
    poolId pool = PoolNo id /\
    pools db' = pools db ++ [mkPoolRow id (PostgresPoolRepository.nameOrNull (reqName request))
                                       (reqYear request) now] /\
    pool_members db' = pool_members db ++ memberRows id (members pool).
Proof.
  intro H. apply createPool_ok in H.
  destruct H as (ms & _ & _ & _ & Hsave). apply save_ok in Hsave.
  destruct Hsave as [-> ->]. cbn.
  repeat split. exists (pools_id_seq db). repeat split.
Qed.

(** Scenario A leaves the three ledger rows alone and records pool number 1. *)
Lemma createPool_writes_pool_only_witness :
  exists pool db',
    PoolUseCase.createPool 1000 Scenario.poolOfThree Scenario.fleet = (Ok pool, db') /\
    ship_compliance db' = ship_compliance Scenario.fleet /\
    ship_compliance_id_seq db' = ship_compliance_id_seq Scenario.fleet /\
    (forall s y, ledgerValue s y db' = ledgerValue s y Scenario.fleet) /\
    bank_entries db' = bank_entries Scenario.fleet /\
    bank_entries_id_seq db' = bank_entries_id_seq Scenario.fleet /\
    routes db' = routes Scenario.fleet /\
    exists id,
      poolId pool = PoolNo id /\
      pools db' = pools Scenario.fleet
                  ++ [mkPoolRow id (PostgresPoolRepository.nameOrNull
                                      (reqName Scenario.poolOfThree)) 2024 1000] /\
      pool_members db' = pool_members Scenario.fleet ++ memberRows id (members pool).
Proof.
  do 2 eexists. split; [vm_compute; reflexivity|].
  apply (createPool_writes_pool_only 1000 Scenario.poolOfThree Scenario.fleet).
  vm_compute; reflexivity.
Defined.

(** C9.  When a member ship has no ledger row for the year, [createPool]
    fails with the missing-balance error for the first such ship of the
    request and that year, and hands the database back as it was.  Every
    failing [createPool] leaves [pools], [pool_members], the ledger and the
    bank entries as they were; unless the failure is the one of [save], the
    whole database is as it was. *)
Theorem createPool_all_or_nothing (now : Z) (request : CreatePoolRequest) (db : DB) :
  (forall s,
      In s (memberShipIds request) -> ledgerValue s (reqYear request) db = None ->
      exists before s0 after,
        memberShipIds request = before ++ s0 :: after /\
        Forall (fun x => ledgerValue x (reqYear request) db <> None) before /\
        ledgerValue s0 (reqYear request) db = None /\
        PoolUseCase.createPool now request db = (Err (MissingBalance s0 (reqYear request)), db)) /\
  (forall e db',
      PoolUseCase.createPool now request db = (Err e, db') ->
      pools db' = pools db /\
      pool_members db' = pool_members db /\
      ship_compliance db' = ship_compliance db /\
      bank_entries db' = bank_entries db /\
      (e <> SavePoolFailed -> db' = db)).
Proof.
  split.
  - intros s Hin Hnone.
    destruct (loadMembers_missing _ _ _ _ Hin Hnone) as [e He].
    destruct (loadMembers_err _ _ _ _ He) as (before & s0 & after & Hsplit & Hb & Hs0 & ->).
    exists before, s0, after. repeat split; try assumption.
    unfold PoolUseCase.createPool. now rewrite He.
  - intros e db' H. apply createPool_err in H.
    destruct H as [[-> _]|(-> & -> & _)].
    + repeat split.
    + repeat split. congruence.
Qed.

(** E9 has no ledger row: the request [E2; E9; E1] fails on E9 and nothing
    is stored. *)
Lemma createPool_all_or_nothing_witness :
  (exists before s0 after,
      memberShipIds Scenario.poolWithUnknown = before ++ s0 :: after /\
      Forall (fun x => ledgerValue x 2024 Scenario.fleet <> None) before /\
      ledgerValue s0 2024 Scenario.fleet = None /\
      PoolUseCase.createPool 1000 Scenario.poolWithUnknown Scenario.fleet
        = (Err (MissingBalance s0 2024), Scenario.fleet)) /\
  (pools Scenario.fleet = pools Scenario.fleet /\
   pool_members Scenario.fleet = pool_members Scenario.fleet /\
   ship_compliance Scenario.fleet = ship_compliance Scenario.fleet /\
   bank_entries Scenario.fleet = bank_entries Scenario.fleet /\
   (MissingBalance "E9" 2024 <> SavePoolFailed -> Scenario.fleet = Scenario.fleet)).
Proof.
  split.
  - apply (proj1 (createPool_all_or_nothing 1000 Scenario.poolWithUnknown Scenario.fleet)
                 "E9"%string).
    + simpl; tauto.
    + reflexivity.
  - apply (proj2 (createPool_all_or_nothing 1000 Scenario.poolWithUnknown Scenario.fleet)
                 (MissingBalance "E9" 2024) Scenario.fleet).
    vm_compute; reflexivity.
Defined.




(** * Further properties of the modelled code *)

(** ** The banking handlers *)



(** X2.  [POST /api/banking/apply] succeeds exactly when the ship id is not
    empty, the year and the amount are positive and the amount is at most the
    ship's banked total; it then answers with the amount.  When the banked total
    is below the amount the repository call fails with the
    insufficient-banked-surplus error, and every failure hands the database
    back as it was. *)
Theorem apply_request_outcome (shipId : string) (year : Z) (amount : Q) (db : DB) :
  ((exists q db', BankingRoutes.postBankingApply shipId year amount db = (Ok q, db')) <->
   (shipId <> ""%string /\ (0 < year)%Z /\ 0 < amount /\
    amount <= PostgresBankingRepository.getBankedAmountForShip shipId year db)) /\
  (forall q db',
      BankingRoutes.postBankingApply shipId year amount db = (Ok q, db') -> q = amount) /\
  (PostgresBankingRepository.getBankedAmountForShip shipId year db < amount ->
   PostgresBankingRepository.applyBankedSurplusToShip shipId year amount db
   = (Err (InsufficientBankedSurplus
             (PostgresBankingRepository.getBankedAmountForShip shipId year db) amount), db)) /\
  (forall e db',
      BankingRoutes.postBankingApply shipId year amount db = (Err e, db') -> db' = db).
Proof.
  assert (Hrepo : PostgresBankingRepository.getBankedAmountForShip shipId year db < amount ->
                  PostgresBankingRepository.applyBankedSurplusToShip shipId year amount db
                  = (Err (InsufficientBankedSurplus
                            (PostgresBankingRepository.getBankedAmountForShip shipId year db)
                            amount), db)).
  { intro Hlt. apply Qltb_true in Hlt.
    unfold PostgresBankingRepository.applyBankedSurplusToShip.
    unfold PostgresBankingRepository.getBankedAmountForShip in *. now rewrite Hlt. }
  split; [|split; [|split; [exact Hrepo|]]].
  - split.
    + intros (q & db' & H). pose proof (postBankingApply_ok _ _ _ _ _ _ H) as [Hpos Hrun].
      apply apply_ok_inv in Hrun. revert H. unfold BankingRoutes.postBankingApply.
      destruct (String.eqb shipId "") eqn:Es; [discriminate|]. apply String.eqb_neq in Es.
      destruct (year <=? 0)%Z eqn:Ey; [discriminate|]. apply Z.leb_gt in Ey.
      intros _. repeat split; assumption.
    + intros (Hs & Hy & Ha & Hle). unfold BankingRoutes.postBankingApply.
      apply String.eqb_neq in Hs. rewrite Hs.
      assert (Ey : (year <=? 0)%Z = false) by (apply Z.leb_gt; lia). rewrite Ey.
      apply Qle_bool_false in Ha. rewrite Ha.
      rewrite (apply_result shipId year amount db Hle). do 2 eexists. reflexivity.
  - intros q db'. unfold BankingRoutes.postBankingApply.
    destruct (String.eqb shipId ""); [discriminate|].
    destruct (year <=? 0)%Z; [discriminate|].
    destruct (Qle_bool amount 0); [discriminate|].
    destruct (PostgresBankingRepository.applyBankedSurplusToShip shipId year amount db)
      as [[u|e] db1]; [|discriminate].
    intro H. now injection H as <- _.
  - intros e db'. unfold BankingRoutes.postBankingApply.
    destruct (String.eqb shipId ""); [intro H; now injection H as _ <-|].
    destruct (year <=? 0)%Z; [intro H; now injection H as _ <-|].
    destruct (Qle_bool amount 0); [intro H; now injection H as _ <-|].
    destruct (Qlt_le_dec (PostgresBankingRepository.getBankedAmountForShip shipId year db) amount)
      as [Hlt|Hle].
    + rewrite (Hrepo Hlt). intro H. now injection H as _ <-.
    + rewrite (apply_result shipId year amount db Hle). discriminate.
Qed.

(** E2 has 10000 banked: asking for 10001 is refused, database untouched. *)
Lemma apply_request_outcome_witness :
  PostgresBankingRepository.applyBankedSurplusToShip "E2" 2024 10001 Scenario.banked
  = (Err (InsufficientBankedSurplus
            (PostgresBankingRepository.getBankedAmountForShip "E2" 2024 Scenario.banked) 10001),
     Scenario.banked).
Proof.
  apply (proj1 (proj2 (proj2 (apply_request_outcome "E2" 2024 10001 Scenario.banked)))).
  reflexivity.
Defined.

(** ** Computing a balance *)

Lemma scMatches_other (s shipId : string) (y year : Z) (r : ShipComplianceRow) :
  s <> shipId \/ y <> year -> scMatches s y r = true -> scMatches shipId year r = false.
Proof.
  intros Hk Hm. unfold scMatches in *. apply andb_true_iff in Hm. destruct Hm as [Hs Hy].
  apply String.eqb_eq in Hs. apply Z.eqb_eq in Hy. apply andb_false_iff.
  destruct Hk as [Hk|Hk]; [left; apply String.eqb_neq|right; apply Z.eqb_neq]; congruence.
Qed.

(** An [UPDATE] of one ship and year leaves the rows selected for another. *)
Lemma filter_update_other (s shipId : string) (y year : Z)
      (f : ShipComplianceRow -> ShipComplianceRow) (rows : list ShipComplianceRow) :
  s <> shipId \/ y <> year ->
  (forall r, scMatches s y (f r) = scMatches s y r) ->
  filter (scMatches s y) (updateWhere (scMatches shipId year) f rows)
  = filter (scMatches s y) rows.
Proof.
  intros Hk Hf. unfold updateWhere.
  rewrite filter_map_stable
    by (intro x; destruct (scMatches shipId year x); [apply Hf|reflexivity]).
  apply map_id_on. intros r Hr. apply filter_In in Hr. destruct Hr as [_ Hm].
  now rewrite (scMatches_other s shipId y year r Hk Hm).
Qed.

(** The upsert of [computeAndSave] always goes through. *)
Lemma save_new_result (shipId : string) (year : Z) (cb : Q) (db : DB) :
  exists saved db',
    PostgresShipComplianceRepository.save
      (PostgresShipComplianceRepository.mkShipCompliance None shipId year cb) db
    = (Ok saved, db') /\
    PostgresShipComplianceRepository.cbGco2eq saved = cb /\
    PostgresShipComplianceRepository.shipId saved = shipId /\
    PostgresShipComplianceRepository.year saved = year /\
    (ship_compliance db'
     = ship_compliance db ++ [mkShipComplianceRow (ship_compliance_id_seq db) shipId year cb] /\
     ledgerRows shipId year db = [] \/
     ship_compliance db'
     = updateWhere (scMatches shipId year) (PostgresShipComplianceRepository.setCb cb)
                   (ship_compliance db) /\
     ledgerRows shipId year db <> []) /\
    ship_compliance_id_seq db' = (ship_compliance_id_seq db + 1)%Z /\
    routes db' = routes db /\
    bank_entries db' = bank_entries db /\
    bank_entries_id_seq db' = bank_entries_id_seq db /\
    pools db' = pools db /\
    pools_id_seq db' = pools_id_seq db /\
    pool_members db' = pool_members db.
Proof.
  unfold PostgresShipComplianceRepository.save, ledgerRows.
  cbn [PostgresShipComplianceRepository.id PostgresShipComplianceRepository.shipId
       PostgresShipComplianceRepository.year PostgresShipComplianceRepository.cbGco2eq].
  destruct (filter (scMatches shipId year) (ship_compliance db)) as [|old more] eqn:Ef.
  - do 2 eexists. split; [reflexivity|]. cbn. repeat split. now left.
  - do 2 eexists. split; [reflexivity|]. cbn.
    assert (Hk : scMatches shipId year old = true).
    { assert (Hin : In old (filter (scMatches shipId year) (ship_compliance db)))
        by (rewrite Ef; now left).
      apply filter_In in Hin. apply Hin. }
    unfold scMatches in Hk. apply andb_true_iff in Hk. destruct Hk as [Hs Hy].
    apply String.eqb_eq in Hs. apply Z.eqb_eq in Hy.
    repeat split; try assumption. right. split; [reflexivity|discriminate].
Qed.

(** X3.  [computeAndSave] for one ship and year leaves the ledger rows and
    the ledger value of every other ship or year as they were, and never
    touches the routes, the bank entries or the pools; when it fails, the whole
    database is as it was. *)
Theorem compute_touches_own_row_only (shipId : string) (year : Z) (routeId : string) (db : DB) :
  (forall s y,
      s <> shipId \/ y <> year ->
      ledgerRows s y (snd (PostgresShipComplianceRepository.computeAndSave shipId year routeId db))
      = ledgerRows s y db /\
      ledgerValue s y (snd (PostgresShipComplianceRepository.computeAndSave shipId year routeId db))
      = ledgerValue s y db) /\
  routes (snd (PostgresShipComplianceRepository.computeAndSave shipId year routeId db))
  = routes db /\
  bank_entries (snd (PostgresShipComplianceRepository.computeAndSave shipId year routeId db))
  = bank_entries db /\
  pools (snd (PostgresShipComplianceRepository.computeAndSave shipId year routeId db))
  = pools db /\
  pool_members (snd (PostgresShipComplianceRepository.computeAndSave shipId year routeId db))
  = pool_members db /\
  (forall e,
      fst (PostgresShipComplianceRepository.computeAndSave shipId year routeId db) = Err e ->
      snd (PostgresShipComplianceRepository.computeAndSave shipId year routeId db) = db).
Proof.
  unfold PostgresShipComplianceRepository.computeAndSave.
  destruct (PostgresShipComplianceRepository.resolveRoute routeId year db) as [route|e0].
  - destruct (save_new_result shipId year
                ((PostgresShipComplianceRepository.COMPLIANCE_TARGET - r_ghg_intensity route)
                 * r_fuel_consumption route) db)
      as (saved & db' & Hs & _ & _ & _ & Hrows & _ & Hr & Hb & _ & Hp & _ & Hm).
    rewrite Hs. cbn [fst snd]. split; [|repeat split; try assumption; discriminate].
    intros s y Hk.
    assert (Hsame : ledgerRows s y db' = ledgerRows s y db).
    { unfold ledgerRows. destruct Hrows as [[-> _]|[-> _]].
      - rewrite filter_app. cbn [filter].
        destruct (scMatches s y _) eqn:Em; [|apply app_nil_r].
        apply (scMatches_other s shipId y year) in Em; [|exact Hk].
        unfold scMatches in Em. cbn in Em. now rewrite String.eqb_refl, Z.eqb_refl in Em.
      - now apply filter_update_other. }
    split; [exact Hsame|]. now rewrite !ledgerValue_rows, Hsame.
  - cbn [fst snd]. repeat split.
Qed.



(** ** Creating and reading pools *)



(** An insert that meets a key already stored aborts the loop, wherever in
    the member list it comes. *)
Lemma insertMembers_hit (id : Z) (ms : list PoolMember) : forall rows m,
  In m ms ->
  existsb (PostgresPoolRepository.pmHasKey id (shipId m)) rows = true ->
  PostgresPoolRepository.insertMembers id ms rows = None.
Proof.
  induction ms as [|m0 ms IH]; intros rows m Hin Hex; [contradiction|].
  cbn [PostgresPoolRepository.insertMembers].
  destruct (existsb (PostgresPoolRepository.pmHasKey id (shipId m0)) rows) eqn:E0;
    [reflexivity|].
  destruct Hin as [->|Hin]; [congruence|].
  apply (IH _ m Hin). rewrite existsb_app, Hex. reflexivity.
Qed.

Lemma insertMembers_distinct (id : Z) (ms : list PoolMember) : forall rows rows',
  PostgresPoolRepository.insertMembers id ms rows = Some rows' ->
  NoDup (map shipId ms) /\
  Forall (fun m => existsb (PostgresPoolRepository.pmHasKey id (shipId m)) rows = false) ms.
Proof.
  induction ms as [|m0 ms IH]; intros rows rows' H; [split; constructor|].
  cbn [PostgresPoolRepository.insertMembers] in H.
  destruct (existsb (PostgresPoolRepository.pmHasKey id (shipId m0)) rows) eqn:E0;
    [discriminate|].
  destruct (IH _ _ H) as [Hnd Hfree]. split.
  - simpl. constructor; [|exact Hnd].
    intro Hin. apply in_map_iff in Hin. destruct Hin as [m [Heq Hm]].
    rewrite (insertMembers_hit id ms _ m Hm) in H; [discriminate|].
    rewrite existsb_app. cbn [existsb]. unfold PostgresPoolRepository.pmHasKey at 2.
    cbn [pm_pool_id pm_ship_id]. rewrite Z.eqb_refl, Heq, String.eqb_refl.
    cbn. now rewrite orb_true_r.
  - constructor; [exact E0|].
    eapply Forall_impl; [|exact Hfree]. intros m Hm. cbn beta in Hm.
    rewrite existsb_app in Hm. now apply orb_false_iff in Hm.
Qed.







Lemma filter_none {A : Type} (p : A -> bool) (l : list A) :
  (forall x, In x l -> p x = false) -> filter p l = [].
Proof.
  induction l as [|x l IH]; simpl; intro H; [reflexivity|].
  rewrite H by now left. apply IH. intros; apply H; now right.
Qed.









Lemma insertNewestFirst_In (x z : PoolRow) (l : list PoolRow) :
  In z (PostgresPoolRepository.insertNewestFirst x l) <-> z = x \/ In z l.
Proof.
  induction l as [|y l IH]; simpl.
  - intuition congruence.
  - destruct (p_created_at y <=? p_created_at x)%Z; simpl; rewrite ?IH; intuition congruence.
Qed.

Lemma orderByCreatedAtDesc_In (z : PoolRow) (l : list PoolRow) :
  In z (PostgresPoolRepository.orderByCreatedAtDesc l) <-> In z l.
Proof.
  induction l as [|y l IH]; simpl; [tauto|].
  rewrite insertNewestFirst_In, IH. intuition congruence.
Qed.

Lemma insertNewestFirst_length (x : PoolRow) (l : list PoolRow) :
  List.length (PostgresPoolRepository.insertNewestFirst x l) = S (List.length l).
Proof.
  induction l as [|y l IH]; simpl; [reflexivity|].
  destruct (p_created_at y <=? p_created_at x)%Z; simpl; [reflexivity|now rewrite IH].
Qed.

Lemma orderByCreatedAtDesc_length (l : list PoolRow) :
  List.length (PostgresPoolRepository.orderByCreatedAtDesc l) = List.length l.
Proof.
  induction l as [|y l IH]; simpl; [reflexivity|].
  now rewrite insertNewestFirst_length, IH.
Qed.

Lemma insertNewestFirst_sorted (db : DB) (x : PoolRow) (l : list PoolRow) :
  newestFirst (map (PostgresPoolRepository.poolOfRow db) l) ->
  newestFirst (map (PostgresPoolRepository.poolOfRow db)
                   (PostgresPoolRepository.insertNewestFirst x l)).
Proof.
  induction l as [|y l IH]; simpl; intro H.
  - split; [intros q []|exact I].
  - destruct H as [Hy Hl].
    destruct (p_created_at y <=? p_created_at x)%Z eqn:E.
    + apply Z.leb_le in E. simpl. repeat split; auto.
      intros q [<-|Hq]; [exact E|]. specialize (Hy q Hq). simpl in Hy. lia.
    + apply Z.leb_gt in E. simpl. split; [|now apply IH].
      intros q Hq. apply in_map_iff in Hq. destruct Hq as [r [<- Hr]].
      apply (proj1 (insertNewestFirst_In _ _ _)) in Hr. destruct Hr as [->|Hr]; [simpl; lia|].
      apply Hy. now apply in_map.
Qed.

Lemma unique_pool_row (rows : list PoolRow) (row : PoolRow) :
  NoDup (map p_id rows) -> In row rows ->
  filter (PostgresPoolRepository.poolHasId (p_id row)) rows = [row].
Proof.
  induction rows as [|x l IH]; simpl; intros Hnd Hin; [contradiction|].
  apply NoDup_cons_iff in Hnd. destruct Hnd as [Hx Hl].
  unfold PostgresPoolRepository.poolHasId at 1.
  destruct Hin as [->|Hin].
  - rewrite Z.eqb_refl. f_equal. apply filter_none. intros z Hz.
    unfold PostgresPoolRepository.poolHasId. apply Z.eqb_neq. intro Heq.
    apply Hx. rewrite <- Heq. now apply in_map.
  - assert (E : (p_id x =? p_id row)%Z = false).
    { apply Z.eqb_neq. intro Heq. apply Hx. rewrite Heq. now apply in_map. }
    rewrite E. now apply IH.
Qed.

(** X8.  [getAllPools] returns one pool per row of [pools], newest
    [created_at] first; when the pool ids are distinct, the pools it lists are
    exactly the ones [findById] finds. *)
Theorem getAllPools_lists_stored_pools (db : DB) :
  List.length (PoolUseCase.getAllPools db) = List.length (pools db) /\
  newestFirst (PoolUseCase.getAllPools db) /\
  (NoDup (map p_id (pools db)) ->
   forall p, In p (PoolUseCase.getAllPools db) <->
             exists id, PostgresPoolRepository.findById id db = Some p).
Proof.
  unfold PoolUseCase.getAllPools, PostgresPoolRepository.findAll. split; [|split].
  - now rewrite length_map, orderByCreatedAtDesc_length.
  - unfold PostgresPoolRepository.orderByCreatedAtDesc.
    induction (pools db) as [|y l IH]; simpl; [exact I|]. now apply insertNewestFirst_sorted.
  - intros Hnd p. rewrite in_map_iff. split.
    + intros (row & <- & Hrow). apply (proj1 (orderByCreatedAtDesc_In _ _)) in Hrow.
      exists (PoolNo (p_id row)). unfold PostgresPoolRepository.findById.
      now rewrite (unique_pool_row _ _ Hnd Hrow).
    + intros ([millis|id] & H); [discriminate|]. unfold PostgresPoolRepository.findById in H.
      destruct (filter (PostgresPoolRepository.poolHasId id) (pools db)) as [|row rest] eqn:Ef;
        [discriminate|].
      injection H as <-. exists row. split; [reflexivity|].
      apply orderByCreatedAtDesc_In.
      assert (Hin : In row (filter (PostgresPoolRepository.poolHasId id) (pools db)))
        by (rewrite Ef; now left).
      now apply filter_In in Hin.
Qed.

(** ** What every request keeps *)

Lemma updateWhere_addCb_keys (p : ShipComplianceRow -> bool) (d : Q)
      (rows : list ShipComplianceRow) :
  map (fun r => (sc_ship_id r, sc_year r))
      (updateWhere p (PostgresBankingRepository.addCb d) rows)
  = map (fun r => (sc_ship_id r, sc_year r)) rows /\
  map sc_id (updateWhere p (PostgresBankingRepository.addCb d) rows) = map sc_id rows.
Proof.
  unfold updateWhere. rewrite !map_map.
  split; apply map_ext; intro x; destruct (p x); reflexivity.
Qed.

Lemma updateWhere_setCb_ids (p : ShipComplianceRow -> bool) (cb : Q)
      (rows : list ShipComplianceRow) :
  map sc_id (updateWhere p (PostgresShipComplianceRepository.setCb cb) rows) = map sc_id rows.
Proof.
  unfold updateWhere. rewrite map_map. apply map_ext. intro x. destruct (p x); reflexivity.
Qed.

(** Appending a row under the next value of a sequence keeps the ids
    distinct and below the advanced sequence. *)
Lemma ids_after_insert (ids : list Z) (seq : Z) :
  NoDup ids -> Forall (fun i => (i < seq)%Z) ids ->
  NoDup (ids ++ [seq]) /\ Forall (fun i => (i < seq + 1)%Z) (ids ++ [seq]).
Proof.
  intros Hnd Hb. split.
  - apply NoDup_app; [exact Hnd|repeat constructor; intros []|].
    intros i Hi [<-|[]]. rewrite Forall_forall in Hb. specialize (Hb _ Hi). lia.
  - apply Forall_app. split.
    + eapply Forall_impl; [|exact Hb]. simpl. intros; lia.
    + repeat constructor. lia.
Qed.

Lemma ids_after_draw (ids : list Z) (seq : Z) :
  Forall (fun i => (i < seq)%Z) ids -> Forall (fun i => (i < seq + 1)%Z) ids.
Proof.
  intro Hb. eapply Forall_impl; [|exact Hb]. simpl. intros; lia.
Qed.

(** What a successful [bankSurplusForShip] leaves behind. *)
Lemma bank_ok_shape (now : Z) (shipId : string) (year : Z) (amount : Q) (db db' : DB) (u : unit) :
  PostgresBankingRepository.bankSurplusForShip now shipId year amount db = (Ok u, db') ->
  (exists v, ledgerValue shipId year db = Some v /\ amount <= v) /\
  db' = mkDB (routes db)
             (updateWhere (scMatches shipId year) (PostgresBankingRepository.addCb (- amount))
                          (ship_compliance db))
             (ship_compliance_id_seq db)
             (bank_entries db ++ [mkBankEntryRow (bank_entries_id_seq db) shipId year amount now])
             (bank_entries_id_seq db + 1)%Z
             (pools db) (pools_id_seq db) (pool_members db).
Proof.
  unfold PostgresBankingRepository.bankSurplusForShip. rewrite ledgerValue_rows.
  unfold ledgerRows.
  destruct (filter (scMatches shipId year) (ship_compliance db)) as [|row rows];
    [discriminate|].
  destruct (Qltb (sc_cb_gco2eq row) amount) eqn:E; [discriminate|]. qbools.
  intro H. injection H as _ <-. split; [|reflexivity].
  exists (sc_cb_gco2eq row). now split.
Qed.

(** What a successful [applyBankedSurplusToShip] leaves behind. *)
Lemma apply_ok_shape (shipId : string) (year : Z) (amount : Q) (db db' : DB) (u : unit) :
  PostgresBankingRepository.applyBankedSurplusToShip shipId year amount db = (Ok u, db') ->
  amount <= PostgresBankingRepository.getBankedAmountForShip shipId year db /\
  db' = mkDB (routes db)
             (updateWhere (scMatches shipId year) (PostgresBankingRepository.addCb amount)
                          (ship_compliance db))
             (ship_compliance_id_seq db)
             (bank_entries (PostgresBankingRepository.consumeEntries
                              (bankQueue shipId year db) amount db))
             (bank_entries_id_seq db)
             (pools db) (pools_id_seq db) (pool_members db).
Proof.
  intro H. pose proof (apply_ok_inv _ _ _ _ _ _ H) as Hle. split; [exact Hle|].
  rewrite (apply_result _ _ _ _ Hle) in H. injection H as _ <-. cbv zeta.
  destruct (consumeEntries_frame (bankQueue shipId year db) amount db)
    as (H1 & H2 & H3 & H4 & H5 & H6 & H7).
  unfold with_ship_compliance. now rewrite H1, H2, H3, H4, H5, H6, H7.
Qed.

(** The member rows a successful [save] wrote carry distinct ship ids. *)
Lemma save_ok_distinct (pool p' : Pool) (db db' : DB) :
  PostgresPoolRepository.save pool db = (Ok p', db') -> NoDup (map shipId (members pool)).
Proof.
  unfold PostgresPoolRepository.save.
  destruct (PostgresPoolRepository.insertMembers _ _ _) as [rows|] eqn:E; [|discriminate].
  intros _. now apply insertMembers_distinct in E.
Qed.

Lemma memberRows_keys (id : Z) (ms : list PoolMember) :
  map (fun r => (pm_pool_id r, pm_ship_id r)) (memberRows id ms)
  = map (fun m => (id, shipId m)) ms.
Proof.
  unfold memberRows. now rewrite map_map.
Qed.

Lemma NoDup_pair_with {A B : Type} (b : B) (f : A -> string) (l : list A) :
  NoDup (map f l) -> NoDup (map (fun x => (b, f x)) l).
Proof.
  induction l as [|x l IH]; simpl; intro H; [constructor|].
  apply NoDup_cons_iff in H. destruct H as [Hx Hl].
  constructor; [|now apply IH].
  intro Hin. apply Hx. apply in_map_iff in Hin. destruct Hin as [y [Hy Hin]].
  injection Hy as Hy. rewrite <- Hy. now apply in_map.
Qed.

(** One request keeps the keys and references of the schema. *)
Lemma handle_schema (req : Request) (db : DB) :
  schemaConstraints db -> schemaConstraints (handle req db).
Proof.
  intros Hsc. pose proof Hsc as (Hu & Hsn & Hsb & Hbank & Hpn & Hpb & Hmk & Hfk).
  destruct req as [s y r|now s y a|s y a|now request]; cbn [handle].
  - (* compute *)
    unfold ShipComplianceUseCase.computeComplianceBalance.
    pose proof (computeAndSave_unique s y r db Hu) as Hu'.
    unfold PostgresShipComplianceRepository.computeAndSave in *.
    destruct (PostgresShipComplianceRepository.resolveRoute r y db) as [route|e];
      [|exact Hsc].
    destruct (save_new_result s y
                ((PostgresShipComplianceRepository.COMPLIANCE_TARGET - r_ghg_intensity route)
                 * r_fuel_consumption route) db)
      as (saved & db' & Hs & _ & _ & _ & Hrows & Hseq & _ & Hb & Hbs & Hp & Hps & Hm).
    rewrite Hs in *. cbn [snd] in *.
    unfold schemaConstraints, bankIdsFresh. rewrite Hseq, Hb, Hbs, Hp, Hps, Hm.
    split; [exact Hu'|]. repeat split; try assumption; try apply Hbank.
    + destruct Hrows as [[-> _]|[-> _]].
      * rewrite map_app. now apply ids_after_insert.
      * now rewrite updateWhere_setCb_ids.
    + destruct Hrows as [[-> _]|[-> _]].
      * rewrite map_app. now apply ids_after_insert.
      * rewrite updateWhere_setCb_ids. now apply ids_after_draw.
  - (* bank *)
    destruct (BankingRoutes.postBankingBank now s y a db) as [[q|e] db'] eqn:E.
    + apply postBankingBank_ok in E. destruct E as [_ E].
      destruct (bank_ok_shape _ _ _ _ _ _ _ E) as [(v & Hv & _) ->].
      destruct (updateWhere_addCb_keys (scMatches s y) (- a) (ship_compliance db)) as [Hk Hi].
      destruct Hbank as [Hbn Hbb].
      unfold schemaConstraints, ledgerUnique, bankIdsFresh.
      cbn [snd ship_compliance ship_compliance_id_seq bank_entries bank_entries_id_seq
               pools pools_id_seq pool_members].
      rewrite Hk, Hi, map_app. cbn [map be_id].
      destruct (ids_after_insert _ _ Hbn Hbb). repeat split; assumption.
    + cbn [snd]. replace db' with db; [exact Hsc|].
      revert E. unfold BankingRoutes.postBankingBank.
      destruct (String.eqb s ""); [intro H; now injection H|].
      destruct (y <=? 0)%Z; [intro H; now injection H|].
      destruct (Qle_bool a 0); [intro H; now injection H|].
      unfold PostgresBankingRepository.bankSurplusForShip.
      destruct (filter (scMatches s y) (ship_compliance db)) as [|row rows];
        [intro H; now injection H|].
      destruct (Qltb (sc_cb_gco2eq row) a); [intro H; now injection H|discriminate].
  - (* apply *)
    destruct (BankingRoutes.postBankingApply s y a db) as [[q|e] db'] eqn:E.
    + apply postBankingApply_ok in E. destruct E as [_ E].
      destruct (apply_ok_shape _ _ _ _ _ _ E) as [_ ->].
      destruct (updateWhere_addCb_keys (scMatches s y) a (ship_compliance db)) as [Hk Hi].
      pose proof (consumeEntries_fresh (bankQueue s y db) a db Hbank) as [Hbn' Hbb'].
      destruct (consumeEntries_frame (bankQueue s y db) a db) as (_ & _ & _ & Hseq & _).
      rewrite Hseq in Hbb'.
      unfold schemaConstraints, ledgerUnique, bankIdsFresh.
      cbn [snd ship_compliance ship_compliance_id_seq bank_entries bank_entries_id_seq
               pools pools_id_seq pool_members].
      rewrite Hk, Hi. repeat split; assumption.
    + cbn [snd]. replace db' with db; [exact Hsc|].
      revert E. unfold BankingRoutes.postBankingApply.
      destruct (String.eqb s ""); [intro H; now injection H|].
      destruct (y <=? 0)%Z; [intro H; now injection H|].
      destruct (Qle_bool a 0); [intro H; now injection H|].
      unfold PostgresBankingRepository.applyBankedSurplusToShip.
      destruct (Qltb _ a); [intro H; now injection H|discriminate].
  - (* create pool *)
    destruct (PoolUseCase.createPool now request db) as [[pool|e] db'] eqn:E.
    + apply createPool_ok in E. destruct E as (ms & _ & _ & _ & Hsave).
      pose proof (save_ok_distinct _ _ _ _ Hsave) as Hdistinct.
      apply save_ok in Hsave. destruct Hsave as [_ ->].
      unfold schemaConstraints, ledgerUnique, bankIdsFresh.
      cbn [snd ship_compliance ship_compliance_id_seq bank_entries bank_entries_id_seq
               pools pools_id_seq pool_members].
      rewrite !map_app. cbn [map p_id].
      destruct (ids_after_insert _ _ Hpn Hpb) as [Hpn' Hpb'].
      repeat split; try assumption; try apply Hbank.
      * rewrite memberRows_keys. apply NoDup_app; [exact Hmk|now apply NoDup_pair_with|].
        intros k Hold Hnew. apply in_map_iff in Hold. destruct Hold as [r [<- Hr]].
        apply in_map_iff in Hnew. destruct Hnew as [m [Hm _]]. injection Hm as Hid _.
        rewrite Forall_forall in Hfk, Hpb. specialize (Hpb _ (Hfk r Hr)). lia.
      * apply Forall_app. split.
        -- eapply Forall_impl; [|exact Hfk]. intros r Hr. cbn beta in *.
           apply in_or_app. now left.
        -- apply Forall_forall. intros r Hr. unfold memberRows in Hr.
           apply in_map_iff in Hr. destruct Hr as [m [<- _]]. cbn [pm_pool_id].
           apply in_or_app. right. now left.
    + apply createPool_err in E. cbn [snd].
      destruct E as [[-> _]|(_ & -> & _)]; [exact Hsc|].
      unfold schemaConstraints, ledgerUnique, bankIdsFresh.
      cbn [ship_compliance ship_compliance_id_seq bank_entries bank_entries_id_seq
             pools pools_id_seq pool_members with_pools].
      repeat split; try assumption; try apply Hbank. now apply ids_after_draw.
Qed.






(** X9.  Every sequence of requests (compute, bank, apply, create pool),
    whether they succeed or fail, keeps the keys and references that
    [schema.sql] declares: distinct ids below their sequences in
    [ship_compliance], [bank_entries] and [pools], one ledger row per ship and
    year, one [pool_members] row per pool and ship, and only member rows of
    stored pools. *)
Theorem requests_keep_schema_constraints (reqs : list Request) : forall db : DB,
  schemaConstraints db -> schemaConstraints (handleAll reqs db).
Proof.
  induction reqs as [|req rest IH]; intros db H; [exact H|].
  cbn [handleAll fold_left]. apply IH. now apply handle_schema.
Qed.


Lemma fleet_schema : schemaConstraints Scenario.fleet.
Proof.
  unfold schemaConstraints, ledgerUnique, bankIdsFresh. simpl.
  repeat split; repeat constructor; simpl; intuition (congruence || lia).
Qed.


(** A compute, a bank, an apply, a pool and a pool that fails in [save]. *)
Lemma requests_keep_schema_constraints_witness :
  schemaConstraints
    (handleAll [ReqCompute "S1" 2024 "R001"; ReqBank 50 "E2" 2024 5000;
                ReqApply "E2" 2024 2000; ReqCreatePool 60 Scenario.poolOfThree;
                ReqCreatePool 70 Scenario.poolWithTwin]
               Scenario.fleet).
Proof.
  apply (requests_keep_schema_constraints
           [ReqCompute "S1" 2024 "R001"; ReqBank 50 "E2" 2024 5000;
            ReqApply "E2" 2024 2000; ReqCreatePool 60 Scenario.poolOfThree;
            ReqCreatePool 70 Scenario.poolWithTwin]
           Scenario.fleet).
  exact fleet_schema.
Defined.




(** ** Fleet totals of a year *)

Section FleetTotals.
Variables (shipId : string) (year : Z).

Local Abbreviation inYear y := (fun r : ShipComplianceRow => Z.eqb (sc_year r) y).
Local Abbreviation bankedInYear y := (fun r : BankEntryRow => Z.eqb (be_year r) y).
Local Abbreviation addCb := PostgresBankingRepository.addCb.
Local Abbreviation subAmount := PostgresBankingRepository.subAmount.









End FleetTotals.



(** ** Comparing routes with a baseline *)

Lemma percent_of_ratio (r b : Q) :
  0 < b -> exists x, r / b == x /\ r == x * b.
Proof.
  intro Hb. exists (r / b). split; [reflexivity|]. field. intro Hz. rewrite Hz in Hb.
  apply (Qlt_irrefl 0 Hb).
Qed.

(** X13.  For a baseline with positive GHG intensity, the percent difference
    of a comparison is negative exactly when the route's intensity is below the
    baseline's, zero exactly when they are equal and positive exactly when it
    is above; the route is flagged compliant exactly when its intensity is at
    most the target 89.3368, whatever the baseline. *)
Theorem comparison_sign (b : RouteUseCase.Baseline) (route : RouteUseCase.Route) :
  0 < RouteUseCase.b_ghgIntensity b ->
  (RouteUseCase.percentDifference (RouteUseCase.compare b route) < 0
   <-> RouteUseCase.ghgIntensity route < RouteUseCase.b_ghgIntensity b) /\
  (RouteUseCase.percentDifference (RouteUseCase.compare b route) == 0
   <-> RouteUseCase.ghgIntensity route == RouteUseCase.b_ghgIntensity b) /\
  (0 < RouteUseCase.percentDifference (RouteUseCase.compare b route)
   <-> RouteUseCase.b_ghgIntensity b < RouteUseCase.ghgIntensity route) /\
  (RouteUseCase.isCompliant (RouteUseCase.compare b route) = true
   <-> RouteUseCase.ghgIntensity route <= 89.3368) /\
  RouteUseCase.complianceTarget (RouteUseCase.compare b route) = 89.3368.
Proof.
  intro Hb. unfold RouteUseCase.compare.
  cbn [RouteUseCase.percentDifference RouteUseCase.isCompliant RouteUseCase.complianceTarget].
  destruct (percent_of_ratio (RouteUseCase.ghgIntensity route) _ Hb) as (x & Hx & Hr).
  rewrite Hx. revert Hb Hr.
  generalize (RouteUseCase.b_ghgIntensity b) (RouteUseCase.ghgIntensity route).
  intros g r Hg Hr.
  split; [|split; [|split; [|split]]].
  - split; intro H; nra.
  - split; intro H; nra.
  - split; intro H; nra.
  - rewrite Qle_bool_iff. unfold RouteUseCase.COMPLIANCE_TARGET. reflexivity.
  - reflexivity.
Qed.

(** A route at 91.5 against a baseline at 88.2: above the baseline. *)
Lemma comparison_sign_witness :
  0 < RouteUseCase.percentDifference
        (RouteUseCase.compare
           (RouteUseCase.mkBaseline "R002" 2024 88.2 6000000 1500 529200000)
           (RouteUseCase.mkRoute "R001" "Container Ship" "HFO" 2024 91.5 5000000 1200
                                 457500000 false))
  <-> 88.2 < 91.5.
Proof.
  apply (proj1 (proj2 (proj2
           (comparison_sign
              (RouteUseCase.mkBaseline "R002" 2024 88.2 6000000 1500 529200000)
              (RouteUseCase.mkRoute "R001" "Container Ship" "HFO" 2024 91.5 5000000 1200
                                    457500000 false)
              eq_refl)))).
Defined.

(** X14.  When a route is marked as baseline and the baseline table holds no
    record for it, neither for the requested year nor for its own,
    [getComparison] compares the route with itself: the baseline carries the
    route's own figures and the percent difference is zero (for a non-zero
    intensity). *)
Theorem baseline_route_shows_no_change (repo : RouteUseCase.RouteRepository)
        (routeId : string) (year0 : Z) (route : RouteUseCase.Route) :
  RouteUseCase.findByRouteId repo routeId = Some route ->
  RouteUseCase.findBaseline repo routeId year0 = None ->
  RouteUseCase.findBaseline repo routeId (RouteUseCase.year route) = None ->
  RouteUseCase.isBaseline route = true ->
  ~ RouteUseCase.ghgIntensity route == 0 ->
  exists c,
    RouteUseCase.getComparison repo routeId year0 = RouteUseCase.RouteOk c /\
    RouteUseCase.baseline c = RouteUseCase.baselineOfRoute route /\
    RouteUseCase.comparison c = route /\
    RouteUseCase.percentDifference c == 0.
Proof.
  intros Hroute Hreq Hown Hmark Hnz. unfold RouteUseCase.getComparison.
  rewrite Hroute, Hreq, Hown, Hmark. eexists. split; [reflexivity|].
  split; [reflexivity|]. split; [reflexivity|].
  cbn [RouteUseCase.compare RouteUseCase.percentDifference RouteUseCase.baselineOfRoute
       RouteUseCase.b_ghgIntensity].
  field. exact Hnz.
Qed.

(** R004 is the baseline route and no baseline record exists. *)
Lemma baseline_route_shows_no_change_witness :
  exists c,
    RouteUseCase.getComparison
      (RouteUseCase.mkRouteRepository
         [RouteUseCase.mkRoute "R004" "Container Ship" "LNG" 2024 78.5 5500000 1300
                               431750000 true]
         (fun id => if String.eqb id "R004"
                    then Some (RouteUseCase.mkRoute "R004" "Container Ship" "LNG" 2024 78.5
                                                    5500000 1300 431750000 true)
                    else None)
         (fun _ _ => None))
      "R004" 2025
    = RouteUseCase.RouteOk c /\
    RouteUseCase.baseline c
    = RouteUseCase.baselineOfRoute
        (RouteUseCase.mkRoute "R004" "Container Ship" "LNG" 2024 78.5 5500000 1300
                              431750000 true) /\
    RouteUseCase.comparison c
    = RouteUseCase.mkRoute "R004" "Container Ship" "LNG" 2024 78.5 5500000 1300 431750000 true /\
    RouteUseCase.percentDifference c == 0.
Proof.
  apply (baseline_route_shows_no_change
           (RouteUseCase.mkRouteRepository
              [RouteUseCase.mkRoute "R004" "Container Ship" "LNG" 2024 78.5 5500000 1300
                                    431750000 true]
              (fun id => if String.eqb id "R004"
                         then Some (RouteUseCase.mkRoute "R004" "Container Ship" "LNG" 2024 78.5
                                                         5500000 1300 431750000 true)
                         else None)
              (fun _ _ => None))
           "R004" 2025).
  - reflexivity.
  - reflexivity.
  - reflexivity.
  - reflexivity.
  - vm_compute. discriminate.
Defined.

(** X15.  The two [COMPLIANCE_TARGET] constants agree: for a route with
    positive fuel consumption, [RouteUseCase] flags the route compliant exactly
    when the balance [computeAndSave] derives from the same intensity and fuel
    consumption is not negative. *)
Theorem compliant_iff_balance_not_negative (b : RouteUseCase.Baseline)
        (route : RouteUseCase.Route) :
  0 < RouteUseCase.fuelConsumption route ->
  (RouteUseCase.isCompliant (RouteUseCase.compare b route) = true
   <-> 0 <= (PostgresShipComplianceRepository.COMPLIANCE_TARGET - RouteUseCase.ghgIntensity route)
            * RouteUseCase.fuelConsumption route).
Proof.
  intro Hf. unfold RouteUseCase.compare. cbn [RouteUseCase.isCompliant].
  rewrite Qle_bool_iff.
  unfold RouteUseCase.COMPLIANCE_TARGET, PostgresShipComplianceRepository.COMPLIANCE_TARGET.
  revert Hf. generalize (RouteUseCase.fuelConsumption route) (RouteUseCase.ghgIntensity route).
  intros f g Hf. split; intro H; nra.
Qed.

(** R002 at 88.2 is compliant and its balance is a surplus. *)
Lemma compliant_iff_balance_not_negative_witness :
  RouteUseCase.isCompliant
    (RouteUseCase.compare
       (RouteUseCase.mkBaseline "R004" 2024 78.5 5500000 1300 431750000)
       (RouteUseCase.mkRoute "R002" "Tanker" "VLSFO" 2024 88.2 6000000 1500 529200000 false))
  = true
  <-> 0 <= (PostgresShipComplianceRepository.COMPLIANCE_TARGET - 88.2) * 6000000.
Proof.
  apply (compliant_iff_balance_not_negative
           (RouteUseCase.mkBaseline "R004" 2024 78.5 5500000 1300 431750000)
           (RouteUseCase.mkRoute "R002" "Tanker" "VLSFO" 2024 88.2 6000000 1500 529200000 false)).
  reflexivity.
Defined.

Lemma find_none_iff {A : Type} (f : A -> bool) (l : list A) :
  find f l = None <-> Forall (fun x => f x = false) l.
Proof.
  induction l as [|x l IH]; simpl; [split; [constructor|reflexivity]|].
  destruct (f x) eqn:E.
  - split; [discriminate|]. intro H. apply Forall_inv in H. congruence.
  - rewrite IH. split; [now constructor|]. intro H. now apply Forall_inv_tail in H.
Qed.

(** X16.  [getAllComparisons] fails exactly when no route is marked as
    baseline.  Otherwise it returns one comparison per route of the requested
    year, in the order of the repository, all against one and the same
    baseline; without a year every route is compared, and the year 0 counts as
    no year. *)
Theorem getAllComparisons_covers_routes (repo : RouteUseCase.RouteRepository)
        (year0 : option Z) :
  ((exists e, RouteUseCase.getAllComparisons repo year0 = RouteUseCase.RouteErr e)
   <-> Forall (fun r => RouteUseCase.isBaseline r = false) (RouteUseCase.findAll repo)) /\
  (forall cs,
      RouteUseCase.getAllComparisons repo year0 = RouteUseCase.RouteOk cs ->
      map RouteUseCase.comparison cs
      = match RouteUseCase.givenYear year0 with
        | Some y => filter (fun r => Z.eqb (RouteUseCase.year r) y) (RouteUseCase.findAll repo)
        | None => RouteUseCase.findAll repo
        end /\
      exists b, Forall (fun c => RouteUseCase.baseline c = b) cs) /\
  RouteUseCase.getAllComparisons repo (Some 0%Z) = RouteUseCase.getAllComparisons repo None.
Proof.
  unfold RouteUseCase.getAllComparisons. split; [|split].
  - rewrite <- find_none_iff.
    destruct (find RouteUseCase.isBaseline (RouteUseCase.findAll repo)) as [r|].
    + split; [intros [e H]; discriminate|discriminate].
    + split; [reflexivity|]. intros _. eexists. reflexivity.
  - intros cs.
    destruct (find RouteUseCase.isBaseline (RouteUseCase.findAll repo)) as [r|]; [|discriminate].
    intro H. injection H as <-. split.
    + rewrite map_map. cbn [RouteUseCase.compare RouteUseCase.comparison]. apply map_id.
    + eexists. apply Forall_forall. intros c Hc. apply in_map_iff in Hc.
      destruct Hc as [route [<- _]]. cbn [RouteUseCase.compare RouteUseCase.baseline].
      reflexivity.
  - reflexivity.
Qed.

(** ** Updating a stored balance *)



